(** * AbiPy flowtk: dependency wiring of [ElasticWork] and [GkqPathFlow]

    A shallow embedding of [abipy/flowtk/dfpt_works.py] and
    [abipy/flowtk/eph_flows.py].  Python objects that are mutated in place
    (the Work being filled, the set of q-points already seen) are threaded
    explicitly; Python exceptions are the [Raise] results of the [result]
    monad. *)

From Stdlib Require Import QArith.QArith_base QArith.Qcanon Strings.Ascii.
From stdpp Require Import base decidable option list strings numbers countable gmap sets.

Local Open Scope string_scope.
Local Open Scope list_scope.

(** ** Exceptions and the error monad *)

(** The exceptions the modelled code can raise.  Reading an unbound local
    raises [UnboundLocalError], a subclass of [NameError]. *)
Inductive exn :=
  | NameError (name : string)
  | KeyError (key : string)
  | TypeError (msg : string)
  | RuntimeError (msg : string).

Inductive result (A : Type) :=
  | Ok (a : A)
  | Raise (e : exn).
Arguments Ok {A} a.
Arguments Raise {A} e.

#[global] Instance result_ret : MRet result := λ A, Ok.
#[global] Instance result_bind : MBind result := λ A B f m,
  match m with
  | Ok a => f a
  | Raise e => Raise e
  end.

(** Reading a local variable that may not have been bound yet. *)
Definition read_local {A} (name : string) (v : option A) : result A :=
  match v with
  | Some x => Ok x
  | None => Raise (NameError name)
  end.

(** [d[key]] on a dict with string keys. *)
Definition getitem {V} (d : gmap string V) (key : string) : result V :=
  match d !! key with
  | Some v => Ok v
  | None => Raise (KeyError key)
  end.

(** [for x in xs: body], where the body may raise. *)
Fixpoint for_each {A S} (body : A → S → result S) (xs : list A) (s : S) : result S :=
  match xs with
  | [] => Ok s
  | x :: xs' => s' ← body x s; for_each body xs' s'
  end.

(** ** Input variables *)

(** Numbers are modelled by their exact rational value, so that Python's
    [==] and [hash] on finite ints and floats ([0 == 0.0], [0.0 == -0.0])
    is equality in [Qc]; rounding of decimal literals to binary64 and NaN
    are not modelled. *)
Inductive value :=
  | VNum (x : Qc)
  | VVec (xs : list Qc).

#[global] Instance value_eq_dec : EqDecision value.
Proof. solve_decision. Defined.

(** An Abinit input is a dict from variable names to values. *)
Abbreviation AbinitInput := (gmap string value).

(** Keyword arguments [name=value, ...] in call order. *)
Abbreviation kwargs := (list (string * value)).

(** Modelled from the spec: [AbinitInput.new_with_vars] (abipy/abio/inputs.py)
    is not among the sources, and the spec says of a job description only
    that it is immutable.  What is modelled is the call made by
    [make_eph_input]: a copy of the input on which the named variables are
    set.  None of the six variables set there is a convergence tolerance.
    What the method does besides when a tolerance is set, as in
    [ElasticWork.from_scf_input], is not described by this definition: there
    the method is a parameter. *)
Definition new_with_vars (inp : AbinitInput) (vars : kwargs) : AbinitInput :=
  foldl (λ acc kv, <[kv.1 := kv.2]> acc) inp vars.

(** A q-point is the tuple built by [tuple(task.input["qpt"])]. *)
Abbreviation qpoint := (list Qc).

(** ** Nodes, dependencies, Tasks and Works *)

(** Object identity of the nodes of a flow: a Work is named by its id and a
    Task by the id of its Work and its index in it (the spec's "unique index
    within its owning Work"). *)
Inductive node :=
  | NWork (w : nat)
  | NTask (w i : nat).

#[global] Instance node_eq_dec : EqDecision node.
Proof. solve_decision. Defined.

(** The Python objects that occur as keys and values of the dependency
    dicts: nodes, strings and lists of strings. *)
Inductive pyobj :=
  | ONode (n : node)
  | OStr (s : string)
  | OStrs (l : list string).

#[global] Instance pyobj_eq_dec : EqDecision pyobj.
Proof. solve_decision. Defined.

(** A dict, in insertion order, with at most one entry per key. *)
Abbreviation pydict := (list (pyobj * pyobj)).

(** [d[k] = v] *)
Fixpoint dict_set (k v : pyobj) (d : pydict) : pydict :=
  match d with
  | [] => [(k, v)]
  | (k', v') :: d' =>
      if decide (k' = k) then (k', v) :: d' else (k', v') :: dict_set k v d'
  end.

(** [{k1: v1, ...}] and dict comprehensions: the items are set in order. *)
Definition dict_of_items (items : list (pyobj * pyobj)) : pydict :=
  foldl (λ d kv, dict_set kv.1 kv.2 d) [] items.

(** [d.update(d2)] *)
Definition dict_update (d d2 : pydict) : pydict :=
  foldl (λ acc kv, dict_set kv.1 kv.2 acc) d d2.

(** Modelled from the spec: the [Dependency] class (abipy/flowtk/nodes.py) is
    not among the sources.  A Task records, for each item [key: value] of a
    [deps] dict it was given, the pair of the two objects as they stand in
    the dict. *)
Abbreviation Dependency := (pyobj * pyobj)%type.

(** The canonical edges [(producer, artifact-name)] of one recorded
    dependency (spec, design notes: a loose mapping of producer to
    artifact-name-or-set is normalized into (producer, artifact-name)
    pairs).  [None] when the pair does not have that shape. *)
Definition dep_edges (d : Dependency) : option (list (node * string)) :=
  match d with
  | (ONode n, OStr s) => Some [(n, s)]
  | (ONode n, OStrs l) => Some ((λ s, (n, s)) <$> l)
  | _ => None
  end.

Definition edges_of (ds : list Dependency) : option (list (node * string)) :=
  es ← mapM dep_edges ds; Some (concat es).

Inductive Status := Init | Ready | Running | Succeeded | Failed.

Inductive TaskKind :=
  | ScfTask | NscfTask | DdkTask | DdeTask | PhononTask | ElasticTask | EphTask.

#[global] Instance TaskKind_eq_dec : EqDecision TaskKind.
Proof. solve_decision. Defined.

Record Task := mkTask {
  kind : TaskKind;
  input : AbinitInput;
  deps : list Dependency;
  status : Status
}.

Record Work := mkWork {
  work_id : nat;
  tasks : list Task
}.

(** [Work()] / [cls(manager=manager)]: a new, empty Work.  The id stands for
    the identity of the freshly allocated object. *)
Definition new_work (id : nat) : Work := mkWork id [].

(** A reference to a Task of a Work is its index in the Work. *)
Abbreviation task_ref := nat.

Definition node_of (w : Work) (t : task_ref) : node := NTask (work_id w) t.

(** Modelled from the spec: [Work.register_task] (abipy/flowtk/works.py) is
    not among the sources.  Per section 4.2 it creates a Task of the
    requested kind from the job specification and the [deps] given (a dict,
    a list of [Dependency], or [None]), appends it to the Work and returns
    the reference of the new Task. *)
Definition register_task (k : TaskKind) (inp : AbinitInput)
    (ds : option (list Dependency)) (w : Work) : task_ref * Work :=
  (length (tasks w),
   mkWork (work_id w) (tasks w ++ [mkTask k inp (default [] ds) Init])).

Definition register_scf_task := register_task ScfTask.
Definition register_nscf_task := register_task NscfTask.
Definition register_ddk_task := register_task DdkTask.
Definition register_dde_task := register_task DdeTask.
Definition register_phonon_task := register_task PhononTask.
Definition register_elastic_task := register_task ElasticTask.
Definition register_eph_task := register_task EphTask.

(** Modelled from the spec: [Node.add_deps] (abipy/flowtk/nodes.py) is not
    among the sources.  [t.add_deps(d)] appends the items of [d] to the
    dependencies already declared by Task [t], which lives in a Work and is
    updated in place there. *)
Definition add_deps (t : task_ref) (d : list Dependency) (w : Work) : Work :=
  mkWork (work_id w)
    (alter (λ tk, mkTask (kind tk) (input tk) (deps tk ++ d) (status tk)) t (tasks w)).

(** Integer and decimal literals as values. *)
Definition num (z : Z) : value := VNum (Q2Qc (inject_Z z)).
Definition tolwfr_default : value := VNum (Q2Qc (1 # 100000000000000000000)).

(** A tolerance dict such as [{"tolwfr": 1.0e-20}], and the dict of them
    that is passed as [tolerances]. *)
Abbreviation tolerance := (gmap string value).
Abbreviation tolerances_dict := (gmap string (gmap string value)).

(** ** [ElasticWork] (dfpt_works.py) *)

Module ElasticWork.

Section from_scf_input.

(** The generators of the perturbation inputs are methods of
    [AbinitInput], external to the workflow engine: they are parameters
    here.  The [manager] argument plays no role in the wiring and is
    left out. *)
Variable make_ddk_inputs : AbinitInput → option tolerance → list AbinitInput.
Variable make_dde_inputs : AbinitInput → option tolerance → bool → list AbinitInput.
Variable make_strain_perts_inputs :
  AbinitInput → option tolerance → bool → Z → list AbinitInput.

(** [AbinitInput.new_with_vars] sets [tolwfr] here, a convergence
    tolerance, and what the method does to the tolerances already in the
    input is not in the sources: it is a parameter as well, and the NSCF
    input is whatever the method returns. *)
Variable new_with_vars : AbinitInput → kwargs → AbinitInput.

(** [{wfk_task: "WFK"}] *)
Definition wfk_dep (new : Work) (wfk_task : task_ref) : pydict :=
  dict_of_items [(ONode (node_of new wfk_task), OStr "WFK")].

(** Lines 48-56: the task for the WFK0 calculation. *)
Definition wfk_phase (scf_input : AbinitInput) (tolerances : tolerances_dict)
    (den_deps : option (list Dependency)) (new : Work) : result (task_ref * Work) :=
  match den_deps with
  | None => Ok (register_scf_task scf_input None new)
  | Some dd =>
      let tolwfr := tolwfr_default in
      tolwfr ← (if bool_decide (is_Some (tolerances !! "nscf"))
                then nscf ← getitem tolerances "nscf"; getitem nscf "tolwfr"
                else Ok tolwfr);
      let nscf_input := new_with_vars scf_input [("iscf", num (-2)); ("tolwfr", tolwfr)] in
      Ok (register_nscf_task nscf_input (Some dd) new)
  end.

(** Lines 58-67: the DDK tasks.  The first component is the local
    [ddk_deps] after the block: [None] while the name is unbound. *)
Definition ddk_phase (scf_input : AbinitInput) (tolerances : tolerances_dict)
    (with_piezo with_dde : bool) (wfk_task : task_ref) (new : Work)
    : option pydict * Work :=
  if with_piezo || with_dde then
    let ddk_tolerance := tolerances !! "ddk" in
    let ddk_multi := make_ddk_inputs scf_input ddk_tolerance in
    let '(ddk_tasks, new) :=
      foldl (λ '(ddk_tasks, new) inp,
               let '(ddk_task, new) :=
                 register_ddk_task inp (Some (wfk_dep new wfk_task)) new in
               (ddk_tasks ++ [ddk_task], new))
            ([], new) ddk_multi in
    (Some (dict_of_items
             ((λ ddk_task, (ONode (node_of new ddk_task), OStr "DDK")) <$> ddk_tasks)),
     new)
  else (None, new).

(** Lines 69-77: the tasks for the electric field perturbation. *)
Definition dde_phase (scf_input : AbinitInput) (tolerances : tolerances_dict)
    (with_dde : bool) (wfk_task : task_ref) (ddk_deps : option pydict) (new : Work)
    : result Work :=
  if with_dde then
    let dde_tolerance := tolerances !! "dde" in
    let dde_multi := make_dde_inputs scf_input dde_tolerance true in
    let dde_deps := wfk_dep new wfk_task in
    d ← read_local "ddk_deps" ddk_deps;
    let dde_deps := dict_update dde_deps d in
    Ok (foldl (λ new inp, (register_dde_task inp (Some dde_deps) new).2) new dde_multi)
  else Ok new.

(** [inp.get(name, 0)] *)
Definition get0 (inp : AbinitInput) (name : string) : value :=
  default (num 0) (inp !! name).

(** Lines 85-91: the phonon perturbations. *)
Definition phonon_phase (strain_multi : list AbinitInput)
    (with_relaxed_ion with_piezo : bool) (wfk_task : task_ref)
    (ddk_deps : option pydict) (new : Work) : result Work :=
  if with_relaxed_ion then
    let ph_deps := wfk_dep new wfk_task in
    ph_deps ← (if with_piezo
               then d ← read_local "ddk_deps" ddk_deps; Ok (dict_update ph_deps d)
               else Ok ph_deps);
    Ok (foldl (λ new inp,
                 if bool_decide (get0 inp "rfphon" = num 1)
                 then (register_phonon_task inp (Some ph_deps) new).2
                 else new)
              new strain_multi)
  else Ok new.

(** Lines 93-98: the strain perturbations. *)
Definition elastic_phase (strain_multi : list AbinitInput)
    (with_piezo : bool) (wfk_task : task_ref)
    (ddk_deps : option pydict) (new : Work) : result Work :=
  let elast_deps := wfk_dep new wfk_task in
  elast_deps ← (if with_piezo
                then d ← read_local "ddk_deps" ddk_deps; Ok (dict_update elast_deps d)
                else Ok elast_deps);
  Ok (foldl (λ new inp,
               if bool_decide (get0 inp "rfstrs" ≠ num 0)
               then (register_elastic_task inp (Some elast_deps) new).2
               else new)
            new strain_multi).

(** [ElasticWork.from_scf_input].  [wid] is the identity of the Work
    object that [cls(manager=manager)] allocates. *)
Definition from_scf_input (wid : nat) (scf_input : AbinitInput)
    (with_relaxed_ion with_piezo with_dde : bool)
    (tolerances : option tolerances_dict)
    (den_deps : option (list Dependency)) : result Work :=
  let tolerances := default ∅ tolerances in
  let new := new_work wid in
  '(wfk_task, new) ← wfk_phase scf_input tolerances den_deps new;
  let '(ddk_deps, new) :=
    ddk_phase scf_input tolerances with_piezo with_dde wfk_task new in
  new ← dde_phase scf_input tolerances with_dde wfk_task ddk_deps new;
  let strain_tolerance := tolerances !! "strain" in
  let strain_multi :=
    make_strain_perts_inputs scf_input strain_tolerance with_relaxed_ion 2 in
  new ← phonon_phase strain_multi with_relaxed_ion with_piezo wfk_task ddk_deps new;
  elastic_phase strain_multi with_piezo wfk_task ddk_deps new.

End from_scf_input.

Section on_all_ok.

(** Modelled from the spec: [MergeDdb.merge_ddb_files]
    (abipy/flowtk/works.py) is not among the sources.  Per the aggregation
    interface of section 6 it reads the member Tasks' artifact locations
    and produces one consolidated artifact, whose path it returns, or it
    raises.  Its arguments are [delete_source_ddbs] and
    [only_dfpt_tasks]. *)
Variable merge_ddb_files : Work → bool → bool → result string.

Record Results := mkResults {
  res_node : nat;
  returncode : Z;
  message : string
}.

(** [ElasticWork.on_all_ok]: the Work after the call and the outcome of
    the call (an exception leaves the state reached so far). *)
Definition on_all_ok (self : Work) : Work * result Results :=
  (self,
   out_ddb ← merge_ddb_files self false false;
   let results := mkResults (work_id self) 0 "DDB merge done" in
   Ok results).

End on_all_ok.

End ElasticWork.

(** ** [GkqPathFlow] (eph_flows.py) *)

Record Flow := mkFlow {
  works : list Work
}.

(** Modelled from the spec: [Flow.register_work] (abipy/flowtk/flows.py) is
    not among the sources.  Per section 4.3 it appends the Work to the
    ordered list of Works of the Flow. *)
Definition register_work (w : Work) (flow : Flow) : Flow :=
  mkFlow (works flow ++ [w]).

(** Modelled from the spec: [Flow.register_scf_task] (abipy/flowtk/flows.py)
    is not among the sources.  It registers a new Work that holds one SCF
    Task and returns that Work. *)
Definition flow_register_scf_task (scf_input : AbinitInput) (flow : Flow) : Work * Flow :=
  let w := (register_scf_task scf_input None (new_work (length (works flow)))).2 in
  (w, register_work w flow).

(** A [PhononWfkqWork] is a Work with the list of its phonon Tasks. *)
Record PhononWfkqWork := mkPhononWfkqWork {
  wfkq_base : Work;
  phonon_tasks : list Task
}.

Module GkqPathFlow.

Section from_scf_input.

(** [PhononWork.from_scf_task] and [PhononWfkqWork.from_scf_task]
    (abipy/flowtk/works.py) are not among the sources: what they put into
    the Work they build is a parameter.  The arguments are the identity of
    the new Work, the SCF task and the q-points; the remaining keyword
    arguments of the two calls are constants of the source. *)
Variable PhononWork_tasks : nat → node → qpoint → bool → list Task.
Variable PhononWfkqWork_tasks : nat → node → list qpoint → list Task * list Task.

Definition PhononWork_from_scf_task (id : nat) (scf_task : node)
    (qpoints : qpoint) (with_becs : bool) : Work :=
  mkWork id (PhononWork_tasks id scf_task qpoints with_becs).

Definition PhononWfkqWork_from_scf_task (id : nat) (scf_task : node)
    (qpath_list : list qpoint) : PhononWfkqWork :=
  let '(ts, phs) := PhononWfkqWork_tasks id scf_task qpath_list in
  mkPhononWfkqWork (mkWork id ts) phs.

(** Lines 49-61. *)
Definition make_eph_input (scf_inp : AbinitInput) (ngqpt qpt : qpoint) : AbinitInput :=
  new_with_vars scf_inp
    [("optdriver", num 7); ("eph_task", num (-2)); ("nqpt", num 1);
     ("qpt", VVec qpt); ("ddb_ngqpt", VVec ngqpt); ("prtphdos", num 0)].

(** [tuple(task.input["qpt"])] *)
Definition task_qpt (task : Task) : result qpoint :=
  v ← getitem (input task) "qpt";
  match v with
  | VVec xs => Ok xs
  | VNum _ => Raise (TypeError "object is not iterable")
  end.

(** Lines 67-71: the body of the first loop, on the pair of the set
    [qseen] and the Work [eph_work]. *)
Definition eph_body (scf_input : AbinitInput) (ngqpt : qpoint)
    (work_qmesh work_qpath : node) (task : Task)
    (st : gset qpoint * Work) : result (gset qpoint * Work) :=
  let '(qseen, eph_work) := st in
  qpt ← task_qpt task;
  if decide (qpt ∈ qseen) then Ok (qseen, eph_work)
  else
    let qseen := qseen ∪ {[qpt]} in
    let '(t, eph_work) :=
      register_eph_task (make_eph_input scf_input ngqpt qpt) (Some (deps task)) eph_work in
    let eph_work :=
      add_deps t (dict_of_items [(ONode work_qmesh, OStr "DDB");
                                 (ONode work_qpath, OStr "DVDB")]) eph_work in
    Ok (qseen, eph_work).

(** Lines 80-86: the body of the second loop. *)
Definition inteph_body (scf_input : AbinitInput) (ngqpt : qpoint)
    (work_qmesh : node) (task : Task)
    (st : gset qpoint * Work) : result (gset qpoint * Work) :=
  let '(qseen, inteph_work) := st in
  qpt ← task_qpt task;
  if decide (qpt ∈ qseen) then Ok (qseen, inteph_work)
  else
    let qseen := qseen ∪ {[qpt]} in
    let eph_inp := make_eph_input scf_input ngqpt qpt in
    let eph_inp := <["eph_use_ftinterp" := num 1]> eph_inp in
    let '(t, inteph_work) :=
      register_eph_task eph_inp (Some (deps task)) inteph_work in
    let inteph_work :=
      add_deps t (dict_of_items [(ONode work_qmesh, OStrs ["DDB"; "DVDB"])]) inteph_work in
    Ok (qseen, inteph_work).

(** [GkqPathFlow.from_scf_input].  [workdir], [manager] and the unused
    [ndivsm] are left out.  A Work object is named by the position it
    takes in the flow. *)
Definition from_scf_input (scf_input : AbinitInput) (ngqpt : qpoint)
    (qpath_list : list qpoint) (with_becs test_ft_interpolation : bool)
    : result Flow :=
  let flow := mkFlow [] in
  let '(scf_work, flow) := flow_register_scf_task scf_input flow in
  let scf_task := node_of scf_work 0 in
  let work_qmesh :=
    PhononWork_from_scf_task (length (works flow)) scf_task ngqpt with_becs in
  let flow := register_work work_qmesh flow in
  let work_qpath :=
    PhononWfkqWork_from_scf_task (length (works flow)) scf_task qpath_list in
  let flow := register_work (wfkq_base work_qpath) flow in
  let qmesh := NWork (work_id work_qmesh) in
  let qpath := NWork (work_id (wfkq_base work_qpath)) in
  let eph_work := new_work (length (works flow)) in
  let qseen : gset qpoint := ∅ in
  '(qseen, eph_work) ←
    for_each (eph_body scf_input ngqpt qmesh qpath)
             (phonon_tasks work_qpath) (qseen, eph_work);
  let flow := register_work eph_work flow in
  if test_ft_interpolation then
    let inteph_work := new_work (length (works flow)) in
    let qseen : gset qpoint := ∅ in
    '(qseen, inteph_work) ←
      for_each (inteph_body scf_input ngqpt qmesh)
               (phonon_tasks work_qpath) (qseen, inteph_work);
    let flow := register_work inteph_work flow in
    Ok flow
  else Ok flow.

End from_scf_input.

End GkqPathFlow.

(** ** [Lesson] (lesson_relaxation.py) *)

Module Lesson.

(** Indexing a sequence either gives the item or raises [IndexError]. *)
Inductive indexed (A : Type) :=
  | Item (a : A)
  | IndexError.
Arguments Item {A} a.
Arguments IndexError {A}.

#[global] Instance indexed_ret : MRet indexed := λ A, Item.
#[global] Instance indexed_bind : MBind indexed := λ A B f m,
  match m with
  | Item a => f a
  | IndexError => IndexError
  end.

(** [l[i]] for an index that is not negative. *)
Definition index {A} (l : list A) (i : nat) : indexed A :=
  match l !! i with
  | Some x => Item x
  | None => IndexError
  end.

Section get_dist.

(** The fractional coordinates are floats; their subtraction is a
    parameter. *)
Variable float : Type.
Variable fsub : float → float → float.

(** Lines 301-304, on [gsrfile.structure.frac_coords]. *)
Definition get_dist (frac_coords : list (list float)) : indexed (string * float) :=
  site2 ← index frac_coords 2;
  z2 ← index site2 2;
  site0 ← index frac_coords 0;
  z0 ← index site0 2;
  let red_dist := fsub z2 z0 in
  Item ("u", red_dist).

End get_dist.

(** [s.replace(".pyc", ".py")]: the occurrences of ".pyc" are replaced from
    left to right, and the scan goes on after each replaced occurrence. *)
Fixpoint replace_pyc (s : string) : string :=
  match s with
  | EmptyString => EmptyString
  | String c s' =>
      match s' with
      | String c2 (String c3 (String c4 rest)) =>
          if decide (c = "."%char ∧ c2 = "p"%char ∧ c3 = "y"%char ∧ c4 = "c"%char)
          then String "." (String "p" (String "y" (replace_pyc rest)))
          else String c (replace_pyc s')
      | _ => String c (replace_pyc s')
      end
  end.

(** Lines 280-282: [Lesson.pyfile], on the absolute path of [__file__]. *)
Definition pyfile (abspath_file : string) : string := replace_pyc abspath_file.

End Lesson.

(** * Vocabulary of the properties *)

(** ** The shape of the dependency dicts built in the source *)

(** The artifact names the two constructors write into their dicts. *)
Definition vocabulary : list string := ["WFK"; "DDK"; "DDB"; "DVDB"].

Definition is_node (o : pyobj) : bool :=
  match o with ONode _ => true | _ => false end.

Definition is_name (o : pyobj) : bool :=
  match o with OStr _ => true | _ => false end.

Definition is_names (o : pyobj) : bool :=
  match o with OStr _ | OStrs _ => true | ONode _ => false end.

Definition in_vocabulary (o : pyobj) : bool :=
  match o with
  | OStr s => bool_decide (s ∈ vocabulary)
  | OStrs l => forallb (λ s, bool_decide (s ∈ vocabulary)) l
  | ONode _ => false
  end.

(** The reading of section 4.1 of the spec: the dict goes from an
    artifact name to the producer (or to a set of artifact names). *)
Definition name_to_producer (d : list Dependency) : bool :=
  forallb (λ kv, is_name kv.1 && (is_node kv.2 || is_names kv.2)) d.

(** What the source builds: the dict goes from the producer node to one
    artifact name or a list of them. *)
Definition producer_to_names (d : list Dependency) : bool :=
  forallb (λ kv, is_node kv.1 && is_names kv.2) d.

(** Producer keys, and names of the vocabulary only. *)
Definition source_built (d : list Dependency) : bool :=
  forallb (λ kv, is_node kv.1 && in_vocabulary kv.2) d.

(** ** How a Work grows *)

(** [w'] is [w] with more Tasks registered, each satisfying [P]. *)
Definition extends (P : Task → Prop) (w w' : Work) : Prop :=
  ∃ extra, w' = mkWork (work_id w) (tasks w ++ extra) ∧ Forall P extra.

(** A Task registered after the first one: its dependencies are a dict
    built in the source, with producer keys and names of the vocabulary. *)
Definition wired (t : Task) : Prop := source_built (deps t) = true.

(** The NSCF Task of line 56, for a given [tolwfr]. *)
Definition nscf_task (new_with_vars : AbinitInput → kwargs → AbinitInput)
    (scf_input : AbinitInput) (tolwfr : value) (den_deps : list Dependency) : Task :=
  mkTask NscfTask (new_with_vars scf_input [("iscf", num (-2)); ("tolwfr", tolwfr)])
         den_deps Init.

(** ** The q-points of Tasks and the deduplication loops *)

(** The q-point tuple of a Task, when its input has a "qpt" vector. *)
Definition qpt_of (t : Task) : option qpoint :=
  match input t !! "qpt" with
  | Some (VVec xs) => Some xs
  | _ => None
  end.

(** The number of Tasks of a list that are set up for q-point [q]. *)
Definition count_qpt (q : qpoint) (ts : list Task) : nat :=
  length (filter (λ t, qpt_of t = Some q) ts).

(** The phonon Tasks that bring a q-point not seen before, in order, each
    with its q-point. *)
Fixpoint first_seen (qseen : gset qpoint) (ts : list Task) : list (qpoint * Task) :=
  match ts with
  | [] => []
  | t :: ts' =>
      match qpt_of t with
      | Some q =>
          if decide (q ∈ qseen) then first_seen qseen ts'
          else (q, t) :: first_seen (qseen ∪ {[q]}) ts'
      | None => first_seen qseen ts'
      end
  end.

(** [t] is the first Task of [ts] whose q-point is [q]. *)
Definition first_with (ts : list Task) (q : qpoint) (t : Task) : Prop :=
  ∃ j, ts !! j = Some t ∧ qpt_of t = Some q ∧
       ∀ j' t', j' < j → ts !! j' = Some t' → qpt_of t' ≠ Some q.

(** Both loop bodies have this form, where [mk q task] is the Task registered
    for q-point [q] on behalf of the phonon Task [task]. *)
Definition dedup_body (mk : qpoint → Task → Task) (task : Task)
    (st : gset qpoint * Work) : result (gset qpoint * Work) :=
  qpt ← GkqPathFlow.task_qpt task;
  if decide (qpt ∈ st.1) then Ok st
  else Ok (st.1 ∪ {[qpt]}, mkWork (work_id st.2) (tasks st.2 ++ [mk qpt task])).

(** Lines 70-71: the Task registered in [eph_work] for q-point [q], on
    behalf of the phonon Task [task]. *)
Definition eph_task (scf_input : AbinitInput) (ngqpt : qpoint) (work_qmesh work_qpath : node)
    (q : qpoint) (task : Task) : Task :=
  mkTask EphTask (GkqPathFlow.make_eph_input scf_input ngqpt q)
    (deps task ++ dict_of_items [(ONode work_qmesh, OStr "DDB");
                                 (ONode work_qpath, OStr "DVDB")])
    Init.

(** Lines 83-86: the Task registered in [inteph_work]. *)
Definition inteph_task (scf_input : AbinitInput) (ngqpt : qpoint) (work_qmesh : node)
    (q : qpoint) (task : Task) : Task :=
  mkTask EphTask
    (<["eph_use_ftinterp" := num 1]> (GkqPathFlow.make_eph_input scf_input ngqpt q))
    (deps task ++ dict_of_items [(ONode work_qmesh, OStrs ["DDB"; "DVDB"])])
    Init.

(** ** The Works of a [GkqPathFlow] *)

Section GkqPathFlow_works.

Variable PhononWork_tasks : nat → node → qpoint → bool → list Task.
Variable PhononWfkqWork_tasks : nat → node → list qpoint → list Task * list Task.

(** The Works that come before the electron-phonon ones. *)
Definition scf_work (scf_input : AbinitInput) : Work :=
  mkWork 0 [mkTask ScfTask scf_input [] Init].

Definition work_qmesh (ngqpt : qpoint) (with_becs : bool) : Work :=
  GkqPathFlow.PhononWork_from_scf_task PhononWork_tasks 1 (NTask 0 0) ngqpt with_becs.

Definition work_qpath (qpath_list : list qpoint) : PhononWfkqWork :=
  GkqPathFlow.PhononWfkqWork_from_scf_task PhononWfkqWork_tasks 2 (NTask 0 0) qpath_list.

(** The q-points of the phonon Tasks computed upstream. *)
Definition upstream_qpoints (qpath_list : list qpoint) : list qpoint :=
  omap qpt_of (phonon_tasks (work_qpath qpath_list)).

(** Every upstream phonon Task has a "qpt" vector in its input. *)
Definition upstream_ok (qpath_list : list qpoint) : Prop :=
  Forall (λ t, is_Some (qpt_of t)) (phonon_tasks (work_qpath qpath_list)).

Definition eph_work (scf_input : AbinitInput) (ngqpt : qpoint) (qpath_list : list qpoint)
    : Work :=
  mkWork 3 (uncurry (eph_task scf_input ngqpt (NWork 1) (NWork 2))
              <$> first_seen ∅ (phonon_tasks (work_qpath qpath_list))).

Definition inteph_work (scf_input : AbinitInput) (ngqpt : qpoint) (qpath_list : list qpoint)
    : Work :=
  mkWork 4 (uncurry (inteph_task scf_input ngqpt (NWork 1))
              <$> first_seen ∅ (phonon_tasks (work_qpath qpath_list))).

End GkqPathFlow_works.

(** ** Readings of the spec that the code does not follow *)

(** The reading of section 7 of the spec: a failing consolidation is
    reported as a Result that says so. *)
Definition reports_failure (merge_ddb_files : Work → bool → bool → result string)
    (self : Work) : Prop :=
  ∀ e, merge_ddb_files self false false = Raise e →
       ∃ res, (ElasticWork.on_all_ok merge_ddb_files self).2 = Ok res ∧
              ElasticWork.returncode res ≠ 0%Z.

(** The reading of "physically equivalent" used below: the two points
    differ by a vector of the reciprocal lattice, that is, by integers in
    reduced coordinates. *)
Definition lattice_equivalent (q1 q2 : qpoint) : Prop :=
  Forall2 (λ a b, ∃ n : Z, (a - b)%Qc = Q2Qc (inject_Z n)) q1 q2.

(** ** Sample inputs *)

(** A Work of two Tasks that have succeeded, a consolidation step that
    fails, and one that returns the path of the merged file. *)
Definition finished_work : Work :=
  mkWork 0 [mkTask ScfTask ∅ [] Succeeded;
            mkTask ElasticTask ∅ [(ONode (NTask 0 0), OStr "WFK")] Succeeded].

Definition merge_error : exn := RuntimeError "Cannot find any DDB file to merge".

Definition failing_merge (self : Work) (delete_source_ddbs only_dfpt_tasks : bool)
    : result string :=
  Raise merge_error.

Definition sample_merge (self : Work) (delete_source_ddbs only_dfpt_tasks : bool)
    : result string :=
  Ok "outdir/out_DDB".

(** Perturbation inputs for an [ElasticWork]: three DDK directions, one
    electric field input, and strain inputs of which the first is the
    phonon perturbation when it is asked for. *)
Definition sample_scf_input : AbinitInput :=
  new_with_vars ∅ [("ecut", num 10); ("tolvrs", VNum (Q2Qc (1 # 100000000)))].

(** A sample of the input method of [ElasticWork]: the variables are set
    on a copy, one after the other, and setting one of the SCF tolerances
    first removes those the input carries, so that a single one is left. *)
Definition scf_tolerances : list string :=
  ["toldfe"; "tolvrs"; "tolwfr"; "tolrff"; "toldff"].

Definition sample_new_with_vars (inp : AbinitInput) (vars : kwargs) : AbinitInput :=
  foldl (λ acc kv,
           let acc := if bool_decide (kv.1 ∈ scf_tolerances)
                      then foldl (λ m name, delete name m) acc scf_tolerances
                      else acc in
           <[kv.1 := kv.2]> acc)
        inp vars.

Definition sample_ddk_inputs (inp : AbinitInput) (tol : option tolerance) : list AbinitInput :=
  (λ dir, new_with_vars inp [("rfelfd", num 2); ("rfdir", VVec dir)])
    <$> [[Q2Qc 1; Q2Qc 0; Q2Qc 0]; [Q2Qc 0; Q2Qc 1; Q2Qc 0]; [Q2Qc 0; Q2Qc 0; Q2Qc 1]].

Definition sample_dde_inputs (inp : AbinitInput) (tol : option tolerance)
    (use_symmetries : bool) : list AbinitInput :=
  [new_with_vars inp [("rfelfd", num 3)]].

Definition sample_strain_inputs (inp : AbinitInput) (tol : option tolerance)
    (phonon_pert : bool) (kptopt : Z) : list AbinitInput :=
  (if phonon_pert then [new_with_vars inp [("rfphon", num 1); ("kptopt", num kptopt)]]
   else [])
  ++ [new_with_vars inp [("rfstrs", num 1); ("kptopt", num kptopt)];
      new_with_vars inp [("rfstrs", num 2); ("kptopt", num kptopt)]].

(** Two q-points at the zone boundary that differ by the reciprocal lattice
    vector (1, 0, 0). *)
Definition q_half : qpoint := [Q2Qc (1 # 2); Q2Qc 0; Q2Qc 0].

Definition q_minus_half : qpoint := [Q2Qc (-1 # 2); Q2Qc 0; Q2Qc 0].

(** An upstream [PhononWfkqWork]: for each q-point of the path one WFQ Task
    and two phonon Tasks (two perturbations) that read it. *)
Fixpoint sample_wfkq_tasks (id : nat) (scf_task : node) (i : nat) (qs : list qpoint)
    : list Task * list Task :=
  match qs with
  | [] => ([], [])
  | q :: qs' =>
      let wfq := mkTask NscfTask (new_with_vars ∅ [("qpt", VVec q)])
                        [(ONode scf_task, OStrs ["DEN"; "WFK"])] Init in
      let ph pert :=
        mkTask PhononTask (new_with_vars ∅ [("qpt", VVec q); ("rfatpol", num pert)])
               [(ONode (NTask id i), OStr "WFQ"); (ONode scf_task, OStr "WFK")] Init in
      let '(ts, phs) := sample_wfkq_tasks id scf_task (i + 3) qs' in
      (wfq :: ph 1%Z :: ph 2%Z :: ts, ph 1%Z :: ph 2%Z :: phs)
  end.

Definition sample_PhononWfkqWork_tasks (id : nat) (scf_task : node) (qs : list qpoint)
    : list Task * list Task :=
  sample_wfkq_tasks id scf_task 0 qs.

Definition sample_PhononWork_tasks (id : nat) (scf_task : node) (ngqpt : qpoint)
    (with_becs : bool) : list Task :=
  [mkTask PhononTask (new_with_vars ∅ [("qpt", VVec [Q2Qc 0; Q2Qc 0; Q2Qc 0])])
          [(ONode scf_task, OStr "WFK")] Init].

Definition sample_ngqpt : qpoint := [Q2Qc 2; Q2Qc 2; Q2Qc 2].

Definition sample_phonon_tasks : list Task :=
  phonon_tasks (work_qpath sample_PhononWfkqWork_tasks [q_half; q_minus_half]).

(** ** The Tasks of an [ElasticWork], block by block *)

Section ElasticWork_blocks.

Variable make_ddk_inputs : AbinitInput → option tolerance → list AbinitInput.
Variable make_dde_inputs : AbinitInput → option tolerance → bool → list AbinitInput.
Variable make_strain_perts_inputs :
  AbinitInput → option tolerance → bool → Z → list AbinitInput.

Variable wid : nat.
Variable scf_input : AbinitInput.
Variable with_relaxed_ion with_piezo with_dde : bool.
Variable tolerances : tolerances_dict.

(** The inputs each block of the constructor works on. *)
Definition ddk_multi : list AbinitInput :=
  if with_piezo || with_dde then make_ddk_inputs scf_input (tolerances !! "ddk") else [].

Definition dde_multi : list AbinitInput :=
  if with_dde then make_dde_inputs scf_input (tolerances !! "dde") true else [].

Definition strain_multi : list AbinitInput :=
  make_strain_perts_inputs scf_input (tolerances !! "strain") with_relaxed_ion 2.

Definition phonon_inputs : list AbinitInput :=
  if with_relaxed_ion
  then filter (λ inp, ElasticWork.get0 inp "rfphon" = num 1) strain_multi
  else [].

Definition elastic_inputs : list AbinitInput :=
  filter (λ inp, ElasticWork.get0 inp "rfstrs" ≠ num 0) strain_multi.

(** [{wfk_task: "WFK"}] and the items of [ddk_deps], for the Work [wid]
    whose first Task is the WFK Task and whose next Tasks are the DDK
    Tasks. *)
Definition wfk_item : Dependency := (ONode (NTask wid 0), OStr "WFK").

Definition ddk_items : list Dependency :=
  (λ i, (ONode (NTask wid i), OStr "DDK")) <$> seq 1 (length ddk_multi).

(** The dependencies of the phonon and strain Tasks. *)
Definition strain_deps : list Dependency :=
  wfk_item :: (if with_piezo then ddk_items else []).

(** The Tasks registered after the WFK Task, in order. *)
Definition later_tasks : list Task :=
  ((λ inp, mkTask DdkTask inp [wfk_item] Init) <$> ddk_multi)
  ++ ((λ inp, mkTask DdeTask inp (wfk_item :: ddk_items) Init) <$> dde_multi)
  ++ ((λ inp, mkTask PhononTask inp strain_deps Init) <$> phonon_inputs)
  ++ ((λ inp, mkTask ElasticTask inp strain_deps Init) <$> elastic_inputs).

End ElasticWork_blocks.

(** ** Upstream Tasks without a q-point *)

(** The exception [tuple(task.input["qpt"])] raises on a Task, if any. *)
Definition qpt_error (t : Task) : option exn :=
  match input t !! "qpt" with
  | None => Some (KeyError "qpt")
  | Some (VNum _) => Some (TypeError "object is not iterable")
  | Some (VVec _) => None
  end.

(** ** Occurrences in strings *)

(** [sub] occurs in [s]. *)
Definition occurs (sub s : string) : Prop :=
  ∃ pre post, s = (pre +:+ sub +:+ post)%string.

(** ** More sample inputs *)

(** Two [tolerances] dicts that differ only in a key the constructor does
    not know. *)
Definition sample_tolerances : tolerances_dict :=
  {["ddk" := {["tolwfr" := VNum (Q2Qc (1 # 1000000))]}]}.

Definition sample_tolerances_more : tolerances_dict :=
  <["scf" := {["tolvrs" := VNum (Q2Qc (1 # 1000000))]}]> sample_tolerances.

(** An upstream Work whose second phonon Task has lost its "qpt". *)
Definition broken_PhononWfkqWork_tasks (id : nat) (scf_task : node) (qs : list qpoint)
    : list Task * list Task :=
  let good := mkTask PhononTask (new_with_vars ∅ [("qpt", VVec q_half)])
                     [(ONode scf_task, OStr "WFK")] Init in
  let bad := mkTask PhononTask (new_with_vars ∅ [("rfatpol", num 1)])
                    [(ONode scf_task, OStr "WFK")] Init in
  ([good; bad], [good; bad; good]).

(** Fractional coordinates of a wurtzite cell with four sites and of a
    diamond cell with two, as exact numbers. *)
Definition gan_frac_coords : list (list Qc) :=
  [[Q2Qc (1 # 3); Q2Qc (2 # 3); Q2Qc 0];
   [Q2Qc (2 # 3); Q2Qc (1 # 3); Q2Qc (1 # 2)];
   [Q2Qc (1 # 3); Q2Qc (2 # 3); Q2Qc (3 # 8)];
   [Q2Qc (2 # 3); Q2Qc (1 # 3); Q2Qc (7 # 8)]].

Definition si_frac_coords : list (list Qc) :=
  [[Q2Qc 0; Q2Qc 0; Q2Qc 0]; [Q2Qc (1 # 4); Q2Qc (1 # 4); Q2Qc (1 # 4)]].

Definition sample_stem : string := "/abipy/lessons/lesson_relaxation".

(** * Properties *)

(** ** Dependency dicts: shape and edges *)

Lemma forallb_dict_set (P : Dependency → bool) k v d :
  P (k, v) = true → forallb P d = true → forallb P (dict_set k v d) = true.
Proof.
  intros Hkv. induction d as [|[k' v'] d IH]; simpl.
  - by rewrite Hkv.
  - intros [Hh Ht]%andb_prop. case_decide; simplify_eq/=.
    + by rewrite Hkv, Ht.
    + by rewrite Hh, IH.
Qed.

Lemma forallb_dict_update (P : Dependency → bool) d d2 :
  forallb P d = true → forallb P d2 = true → forallb P (dict_update d d2) = true.
Proof.
  unfold dict_update. revert d.
  induction d2 as [|[k v] d2 IH]; intros d Hd; simpl; [done|].
  intros [Hh Ht]%andb_prop. apply IH; [|done]. by apply forallb_dict_set.
Qed.

Lemma forallb_dict_of_items (P : Dependency → bool) items :
  forallb P items = true → forallb P (dict_of_items items) = true.
Proof. intros. by apply (forallb_dict_update P []). Qed.

Lemma source_built_producer_to_names d :
  source_built d = true → producer_to_names d = true.
Proof.
  unfold source_built, producer_to_names. induction d as [|[k v] d IH]; simpl; [done|].
  intros [[Hk Hv]%andb_prop Ht]%andb_prop. rewrite Hk, IH by done.
  by destruct v.
Qed.

(** The edges of a dict built in the source exist and are labelled in the
    vocabulary. *)
Lemma source_built_edges d :
  source_built d = true →
  ∃ es, edges_of d = Some es ∧ Forall (λ e, e.2 ∈ vocabulary) es.
Proof.
  unfold edges_of. induction d as [|[k v] d IH]; simpl.
  - intros _. exists []. by split.
  - intros [[Hk Hv]%andb_prop Ht]%andb_prop.
    destruct (IH Ht) as (es & Hes & Hall).
    destruct (mapM dep_edges d) as [ess|] eqn:Hm; simplify_eq/=.
    destruct k as [n| |]; try done. destruct v as [|s|l]; try done; simpl in *.
    + eexists. split; [done|]. constructor; [|done]. simpl.
      by apply bool_decide_eq_true in Hv.
    + eexists. split; [done|]. apply Forall_app. split; [|done].
      apply Forall_fmap, Forall_forall. intros s Hs. simpl.
      rewrite forallb_forall in Hv. apply list_elem_of_In, Hv in Hs.
      by apply bool_decide_eq_true in Hs.
Qed.

(** ** [ElasticWork.from_scf_input]: how the Work grows *)

Lemma extends_refl P w : extends P w w.
Proof. exists []. destruct w. simpl. by rewrite app_nil_r. Qed.

Lemma extends_trans P w1 w2 w3 : extends P w1 w2 → extends P w2 w3 → extends P w1 w3.
Proof.
  intros (e1 & -> & H1) (e2 & -> & H2). exists (e1 ++ e2). simpl.
  rewrite app_assoc. split; [done|]. by apply Forall_app.
Qed.

Lemma extends_foldl {A} P (f : Work → A → Work) :
  (∀ w x, extends P w (f w x)) → ∀ l w, extends P w (foldl f w l).
Proof.
  intros Hf l. induction l as [|x l IH]; intros w; simpl.
  - apply extends_refl.
  - eapply extends_trans; [apply Hf|apply IH].
Qed.

(** One registration: the Work grows by the Task just built. *)
Ltac one_more :=
  eexists; split; [reflexivity|]; constructor; [unfold wired; simpl|constructor].

Section ElasticWork_lemmas.

Variable make_ddk_inputs : AbinitInput → option tolerance → list AbinitInput.

Variable make_dde_inputs : AbinitInput → option tolerance → bool → list AbinitInput.

Variable make_strain_perts_inputs :
  AbinitInput → option tolerance → bool → Z → list AbinitInput.

Variable new_with_vars : AbinitInput → kwargs → AbinitInput.

(** The loop of lines 64-66 registers one DDK Task per input and collects
    their references. *)
Lemma ddk_loop_spec wfk l : ∀ acc new,
  foldl (λ '(ddk_tasks, new) inp,
           let '(ddk_task, new) :=
             register_ddk_task inp (Some (ElasticWork.wfk_dep new wfk)) new in
           (ddk_tasks ++ [ddk_task], new))
        (acc, new) l
  = (acc ++ seq (length (tasks new)) (length l),
     mkWork (work_id new)
       (tasks new ++ ((λ inp, mkTask DdkTask inp (ElasticWork.wfk_dep new wfk) Init) <$> l))).
Proof.
  induction l as [|inp l IH]; intros acc new; simpl.
  - rewrite !app_nil_r. by destruct new.
  - rewrite IH. simpl. rewrite length_app. simpl.
    rewrite <- !app_assoc. simpl. by rewrite Nat.add_1_r.
Qed.

Lemma ddk_phase_spec scf_input tolerances with_piezo with_dde wfk new :
  ∃ ddk_deps new',
    ElasticWork.ddk_phase make_ddk_inputs scf_input tolerances with_piezo with_dde wfk new
      = (ddk_deps, new') ∧
    extends wired new new' ∧
    (is_Some ddk_deps ↔ with_piezo || with_dde = true) ∧
    (∀ d, ddk_deps = Some d → source_built d = true).
Proof.
  unfold ElasticWork.ddk_phase. destruct (with_piezo || with_dde).
  - rewrite ddk_loop_spec. do 2 eexists. split; [done|]. split; [|split].
    + eexists. split; [done|]. apply Forall_fmap, Forall_forall. by intros.
    + split; eauto.
    + intros d [= <-]. apply forallb_dict_of_items.
      apply forallb_forall. intros kv [x [<- _]]%in_map_iff. done.
  - do 2 eexists. split; [done|]. split; [apply extends_refl|]. split.
    + split; [by intros [? ?]|done].
    + done.
Qed.

Lemma dde_phase_spec scf_input tolerances with_dde wfk ddk_deps new :
  (with_dde = true → is_Some ddk_deps) →
  (∀ d, ddk_deps = Some d → source_built d = true) →
  ∃ new', ElasticWork.dde_phase make_dde_inputs scf_input tolerances with_dde wfk ddk_deps new
            = Ok new' ∧ extends wired new new'.
Proof.
  intros Hb Hd. unfold ElasticWork.dde_phase. destruct with_dde.
  - destruct Hb as [d ->]; [done|]. simpl. eexists. split; [done|].
    apply extends_foldl. intros w x. one_more.
    apply forallb_dict_update; [done|by apply Hd].
  - eexists. split; [done|]. apply extends_refl.
Qed.

Lemma phonon_phase_spec strain_multi with_relaxed_ion with_piezo wfk ddk_deps new :
  (with_piezo = true → is_Some ddk_deps) →
  (∀ d, ddk_deps = Some d → source_built d = true) →
  ∃ new', ElasticWork.phonon_phase strain_multi with_relaxed_ion with_piezo wfk ddk_deps new
            = Ok new' ∧ extends wired new new'.
Proof.
  intros Hb Hd. unfold ElasticWork.phonon_phase. destruct with_relaxed_ion.
  - destruct with_piezo.
    + destruct Hb as [d ->]; [done|]. simpl. eexists. split; [done|].
      apply extends_foldl. intros w x. case_bool_decide; [|apply extends_refl].
      one_more. apply forallb_dict_update; [done|by apply Hd].
    + simpl. eexists. split; [done|].
      apply extends_foldl. intros w x. case_bool_decide; [|apply extends_refl].
      by one_more.
  - eexists. split; [done|]. apply extends_refl.
Qed.

Lemma elastic_phase_spec strain_multi with_piezo wfk ddk_deps new :
  (with_piezo = true → is_Some ddk_deps) →
  (∀ d, ddk_deps = Some d → source_built d = true) →
  ∃ new', ElasticWork.elastic_phase strain_multi with_piezo wfk ddk_deps new
            = Ok new' ∧ extends wired new new'.
Proof.
  intros Hb Hd. unfold ElasticWork.elastic_phase. destruct with_piezo.
  - destruct Hb as [d ->]; [done|]. simpl. eexists. split; [done|].
    apply extends_foldl. intros w x. case_bool_decide; [|apply extends_refl].
    one_more. apply forallb_dict_update; [done|by apply Hd].
  - simpl. eexists. split; [done|].
    apply extends_foldl. intros w x. case_bool_decide; [|apply extends_refl].
    by one_more.
Qed.

(** Once the first Task is registered, the rest of the constructor cannot
    raise, and it only appends wired Tasks. *)
Lemma from_scf_input_after_wfk wid scf_input with_relaxed_ion with_piezo with_dde
    tolerances den_deps wfk new :
  ElasticWork.wfk_phase new_with_vars scf_input (default ∅ tolerances) den_deps (new_work wid)
    = Ok (wfk, new) →
  ∃ new', ElasticWork.from_scf_input make_ddk_inputs make_dde_inputs
            make_strain_perts_inputs new_with_vars
            wid scf_input with_relaxed_ion with_piezo with_dde
            tolerances den_deps = Ok new' ∧
          extends wired new new'.
Proof.
  intros Hwfk. unfold ElasticWork.from_scf_input. rewrite Hwfk. simpl.
  destruct (ddk_phase_spec scf_input (default ∅ tolerances) with_piezo with_dde wfk new)
    as (ddk_deps & new1 & -> & H1 & Hb & Hd).
  assert (with_dde = true → is_Some ddk_deps) as Hdde.
  { intros ->. apply Hb. by rewrite orb_true_r. }
  assert (with_piezo = true → is_Some ddk_deps) as Hpz.
  { intros ->. by apply Hb. }
  destruct (dde_phase_spec scf_input (default ∅ tolerances) with_dde wfk ddk_deps new1
              Hdde Hd) as (new2 & -> & H2). simpl.
  destruct (phonon_phase_spec
              (make_strain_perts_inputs scf_input (default ∅ tolerances !! "strain")
                 with_relaxed_ion 2)
              with_relaxed_ion with_piezo wfk ddk_deps new2 Hpz Hd) as (new3 & -> & H3).
  simpl.
  destruct (elastic_phase_spec
              (make_strain_perts_inputs scf_input (default ∅ tolerances !! "strain")
                 with_relaxed_ion 2)
              with_piezo wfk ddk_deps new3 Hpz Hd) as (new4 & -> & H4).
  eexists. split; [done|]. eauto using extends_trans.
Qed.

End ElasticWork_lemmas.

(** ** The first Task of an [ElasticWork] *)

Lemma wfk_phase_scf new_with_vars scf_input tol wid :
  ElasticWork.wfk_phase new_with_vars scf_input tol None (new_work wid)
  = Ok (0, mkWork wid [mkTask ScfTask scf_input [] Init]).
Proof. done. Qed.

Lemma wfk_phase_nscf_default new_with_vars scf_input (tol : tolerances_dict) dd wid :
  tol !! "nscf" = None →
  ElasticWork.wfk_phase new_with_vars scf_input tol (Some dd) (new_work wid)
  = Ok (0, mkWork wid [nscf_task new_with_vars scf_input tolwfr_default dd]).
Proof.
  intros H. unfold ElasticWork.wfk_phase. rewrite H.
  rewrite bool_decide_eq_false_2; [done|]. by intros [? ?].
Qed.

Lemma wfk_phase_nscf_given new_with_vars scf_input (tol : tolerances_dict) nscf v dd wid :
  tol !! "nscf" = Some nscf → nscf !! "tolwfr" = Some v →
  ElasticWork.wfk_phase new_with_vars scf_input tol (Some dd) (new_work wid)
  = Ok (0, mkWork wid [nscf_task new_with_vars scf_input v dd]).
Proof.
  intros H Hv. unfold ElasticWork.wfk_phase, getitem. rewrite H.
  rewrite bool_decide_eq_true_2 by eauto. simpl. by rewrite Hv.
Qed.

Lemma wfk_phase_nscf_missing new_with_vars scf_input (tol : tolerances_dict) nscf dd wid :
  tol !! "nscf" = Some nscf → nscf !! "tolwfr" = None →
  ElasticWork.wfk_phase new_with_vars scf_input tol (Some dd) (new_work wid)
  = Raise (KeyError "tolwfr").
Proof.
  intros H Hv. unfold ElasticWork.wfk_phase, getitem. rewrite H.
  rewrite bool_decide_eq_true_2 by eauto. simpl. by rewrite Hv.
Qed.

(** The first phase registers exactly one Task, or raises [KeyError]. *)
Lemma wfk_phase_cases new_with_vars scf_input (tol : tolerances_dict) den_deps wid :
  (∃ t0, ElasticWork.wfk_phase new_with_vars scf_input tol den_deps (new_work wid)
           = Ok (0, mkWork wid [t0]) ∧ deps t0 = default [] den_deps) ∨
  (is_Some den_deps ∧
   ElasticWork.wfk_phase new_with_vars scf_input tol den_deps
     (new_work wid) = Raise (KeyError "tolwfr")).
Proof.
  destruct den_deps as [dd|].
  - destruct (tol !! "nscf") as [nscf|] eqn:Hn.
    + destruct (nscf !! "tolwfr") as [v|] eqn:Hv.
      * left. eexists. by rewrite (wfk_phase_nscf_given _ _ _ _ _ _ _ Hn Hv).
      * right. split; [eauto|]. by apply (wfk_phase_nscf_missing _ _ _ nscf).
    + left. eexists. by rewrite (wfk_phase_nscf_default _ _ _ _ _ Hn).
  - left. eexists. by rewrite wfk_phase_scf.
Qed.

Section ElasticWork_results.

Variable make_ddk_inputs : AbinitInput → option tolerance → list AbinitInput.

Variable make_dde_inputs : AbinitInput → option tolerance → bool → list AbinitInput.

Variable make_strain_perts_inputs :
  AbinitInput → option tolerance → bool → Z → list AbinitInput.

Variable new_with_vars : AbinitInput → kwargs → AbinitInput.

Local Abbreviation from_scf_input :=
  (ElasticWork.from_scf_input make_ddk_inputs make_dde_inputs make_strain_perts_inputs
      new_with_vars).

Lemma from_scf_input_raise wid scf_input ion piezo dde tolerances den_deps e :
  ElasticWork.wfk_phase new_with_vars scf_input (default ∅ tolerances) den_deps
    (new_work wid) = Raise e →
  from_scf_input wid scf_input ion piezo dde tolerances den_deps = Raise e.
Proof. intros H. unfold ElasticWork.from_scf_input. by rewrite H. Qed.

(** The Work that the constructor returns: the first Task, then wired
    Tasks only. *)
Lemma from_scf_input_tasks wid scf_input ion piezo dde tolerances den_deps t0 :
  ElasticWork.wfk_phase new_with_vars scf_input (default ∅ tolerances) den_deps (new_work wid)
    = Ok (0, mkWork wid [t0]) →
  ∃ rest, from_scf_input wid scf_input ion piezo dde tolerances den_deps
            = Ok (mkWork wid (t0 :: rest)) ∧ Forall wired rest.
Proof.
  intros H.
  destruct (from_scf_input_after_wfk make_ddk_inputs make_dde_inputs
              make_strain_perts_inputs new_with_vars _ _ ion piezo dde _ _ _ _ H)
    as (new' & -> & extra & -> & Hall).
  by exists extra.
Qed.

(** C10, as amended: without [den_deps] the wavefunction Task is a plain
    SCF Task from [scf_input].  With [den_deps] it is an NSCF Task with
    [den_deps] as its dependencies and the input
    [scf_input.new_with_vars(iscf=-2, tolwfr=tolwfr)], where [tolwfr] is
    1.0e-20 when "nscf" is not a key of [tolerances] and
    [tolerances["nscf"]["tolwfr"]] when "nscf" is a key whose dict has the key
    "tolwfr".  When "nscf" is a key whose dict has no "tolwfr", the constructor
    raises [KeyError] on "tolwfr" and no Work is returned. *)
Theorem C10_wfk_task_is_scf_or_nscf wid scf_input ion piezo dde tolerances den_deps :
  let run := from_scf_input wid scf_input ion piezo dde tolerances den_deps in
  let tol : tolerances_dict := default ∅ tolerances in
  (den_deps = None →
     ∃ new, run = Ok new ∧ tasks new !! 0 = Some (mkTask ScfTask scf_input [] Init)) ∧
  (∀ dd, den_deps = Some dd → tol !! "nscf" = None →
     ∃ new, run = Ok new ∧
            tasks new !! 0 = Some (nscf_task new_with_vars scf_input tolwfr_default dd)) ∧
  (∀ dd nscf v, den_deps = Some dd → tol !! "nscf" = Some nscf → nscf !! "tolwfr" = Some v →
     ∃ new, run = Ok new ∧ tasks new !! 0 = Some (nscf_task new_with_vars scf_input v dd)) ∧
  (∀ dd nscf, den_deps = Some dd → tol !! "nscf" = Some nscf → nscf !! "tolwfr" = None →
     run = Raise (KeyError "tolwfr")).
Proof.
  intros run tol. subst run. repeat split.
  - intros ->.
    destruct (from_scf_input_tasks wid scf_input ion piezo dde tolerances None _
                (wfk_phase_scf _ _ _ _)) as (rest & -> & _).
    by eexists.
  - intros dd -> Hn.
    destruct (from_scf_input_tasks wid scf_input ion piezo dde tolerances (Some dd) _
                (wfk_phase_nscf_default _ _ _ _ _ Hn)) as (rest & -> & _).
    by eexists.
  - intros dd nscf v -> Hn Hv.
    destruct (from_scf_input_tasks wid scf_input ion piezo dde tolerances (Some dd) _
                (wfk_phase_nscf_given _ _ _ _ _ _ _ Hn Hv)) as (rest & -> & _).
    by eexists.
  - intros dd nscf -> Hn Hv.
    apply from_scf_input_raise. by apply (wfk_phase_nscf_missing _ _ _ nscf).
Qed.

(** C9: [ddk_deps] is bound exactly when [with_piezo or with_dde]; it is
    read only under [with_dde] (dde branch) and under [with_piezo] (phonon
    and elastic branches); so no combination of the flags makes the
    constructor raise [NameError]. *)
Theorem C9_ddk_deps_bound_before_read wid scf_input ion piezo dde tolerances den_deps :
  let tol : tolerances_dict := default ∅ tolerances in
  let strain_multi := make_strain_perts_inputs scf_input (tol !! "strain") ion 2 in
  (∀ wfk new,
     is_Some (ElasticWork.ddk_phase make_ddk_inputs scf_input tol piezo dde wfk new).1
     ↔ piezo || dde = true) ∧
  (∀ wfk new,
     ElasticWork.dde_phase make_dde_inputs scf_input tol dde wfk None new
     = if dde then Raise (NameError "ddk_deps")
       else Ok new) ∧
  (∀ wfk new,
     ElasticWork.phonon_phase strain_multi ion piezo wfk None new = Raise (NameError "ddk_deps")
     ↔ ion && piezo = true) ∧
  (∀ wfk new,
     ElasticWork.elastic_phase strain_multi piezo wfk None new = Raise (NameError "ddk_deps")
     ↔ piezo = true) ∧
  (∀ name,
     from_scf_input wid scf_input ion piezo dde tolerances den_deps ≠ Raise (NameError name)) ∧
  ((∃ new, from_scf_input wid scf_input ion piezo dde tolerances den_deps = Ok new) ∨
   (is_Some den_deps ∧
    from_scf_input wid scf_input ion piezo dde tolerances den_deps
    = Raise (KeyError "tolwfr"))).
Proof.
  intros tol strain_multi. split; [|split; [|split; [|split; [|split]]]].
  - intros wfk new.
    destruct (ddk_phase_spec make_ddk_inputs scf_input tol piezo dde wfk new)
      as (d & new' & -> & _ & Hb & _). done.
  - intros wfk new. unfold ElasticWork.dde_phase. by destruct dde.
  - intros wfk new. unfold ElasticWork.phonon_phase. by destruct ion, piezo.
  - intros wfk new. unfold ElasticWork.elastic_phase. by destruct piezo.
  - intros name.
    destruct (wfk_phase_cases new_with_vars scf_input tol den_deps wid) as [(t0 & H & _)|[_ H]].
    + destruct (from_scf_input_tasks wid scf_input ion piezo dde tolerances den_deps t0 H)
        as (rest & -> & _). done.
    + by rewrite (from_scf_input_raise _ _ _ _ _ _ _ _ H).
  - destruct (wfk_phase_cases new_with_vars scf_input tol den_deps wid) as [(t0 & H & _)|[Hs H]].
    + destruct (from_scf_input_tasks wid scf_input ion piezo dde tolerances den_deps t0 H)
        as (rest & -> & _). eauto.
    + right. split; [done|]. by apply from_scf_input_raise.
Qed.

End ElasticWork_results.

(** ** The deduplication loops of [GkqPathFlow.from_scf_input] *)

Lemma task_qpt_Ok t q : GkqPathFlow.task_qpt t = Ok q ↔ qpt_of t = Some q.
Proof.
  unfold GkqPathFlow.task_qpt, qpt_of, getitem.
  destruct (input t !! "qpt") as [[x|xs]|]; simpl; naive_solver.
Qed.

Lemma task_qpt_of t q : qpt_of t = Some q → GkqPathFlow.task_qpt t = Ok q.
Proof. apply task_qpt_Ok. Qed.

Lemma first_seen_count q : ∀ ts qseen,
  length (filter (λ p, p.1 = q) (first_seen qseen ts))
  = if decide ((q ∉ qseen) ∧ q ∈ omap qpt_of ts) then 1 else 0.
Proof.
  induction ts as [|t ts IH]; intros qseen; simpl.
  - case_decide as H; [|done]. destruct H as [_ H]. by apply elem_of_nil in H.
  - destruct (qpt_of t) as [q0|]; [|apply IH].
    destruct (decide (q0 ∈ qseen)) as [Hin|Hnin].
    + rewrite IH. repeat case_decide; try done; set_solver.
    + rewrite filter_cons. simpl. destruct (decide (q0 = q)) as [->|Hne]; simpl.
      * rewrite IH. rewrite decide_False by set_solver.
        rewrite decide_True by set_solver. done.
      * rewrite IH. repeat case_decide; try done; set_solver.
Qed.

Lemma first_seen_first : ∀ ts qseen q t,
  (q, t) ∈ first_seen qseen ts → (q ∉ qseen) ∧ first_with ts q t.
Proof.
  induction ts as [|t0 ts IH]; intros qseen q t; simpl.
  - by intros ?%elem_of_nil.
  - destruct (qpt_of t0) as [q0|] eqn:Hq0.
    + destruct (decide (q0 ∈ qseen)) as [Hin|Hnin].
      * intros [Hq (j & Hj & Hqt & Hfirst)]%IH. split; [done|].
        exists (S j). split; [done|]. split; [done|].
        intros [|j'] t' Hlt; simpl.
        -- intros [= <-]. congruence.
        -- apply Hfirst. lia.
      * intros [[= -> ->]|Hel]%elem_of_cons.
        -- split; [done|]. exists 0. split; [done|]. split; [done|]. lia.
        -- apply IH in Hel as [Hq (j & Hj & Hqt & Hfirst)].
           split; [set_solver|]. exists (S j). split; [done|]. split; [done|].
           intros [|j'] t' Hlt; simpl.
           ++ intros [= <-]. rewrite Hq0. intros [= ->]. set_solver.
           ++ apply Hfirst. lia.
    + intros [Hq (j & Hj & Hqt & Hfirst)]%IH. split; [done|].
      exists (S j). split; [done|]. split; [done|].
      intros [|j'] t' Hlt; simpl.
      * intros [= <-]. congruence.
      * apply Hfirst. lia.
Qed.

Lemma first_seen_NoDup : ∀ ts qseen, NoDup (first_seen qseen ts).*1.
Proof.
  induction ts as [|t ts IH]; intros qseen; simpl; [constructor|].
  destruct (qpt_of t) as [q0|]; [|apply IH].
  case_decide; [apply IH|]. simpl. constructor; [|apply IH].
  intros [[q' t'] [Heq Hel]]%list_elem_of_fmap. simpl in Heq. subst q'.
  apply first_seen_first in Hel as [Hq _]. set_solver.
Qed.

Lemma first_seen_qpoints ts :
  list_to_set (first_seen ∅ ts).*1 =@{gset qpoint} list_to_set (omap qpt_of ts).
Proof.
  apply set_eq. intros q. rewrite !elem_of_list_to_set.
  pose proof (first_seen_count q ts ∅) as Hc.
  case_decide as Hd.
  - split; [by intros; apply Hd|]. intros _.
    destruct (filter (λ p, p.1 = q) (first_seen ∅ ts)) as [|[q' t'] l] eqn:Hf; [done|].
    assert ((q', t') ∈ filter (λ p, p.1 = q) (first_seen ∅ ts)) as Hel
      by (rewrite Hf; left).
    apply list_elem_of_filter in Hel as [Heq Hel]. simpl in Heq. subst q'.
    apply list_elem_of_fmap. by exists (q, t').
  - split; [|intros; exfalso; apply Hd; split; [set_solver|done]].
    intros [[q' t'] [Heq Hel]]%list_elem_of_fmap. simpl in Heq. subst q'.
    apply length_zero_iff_nil in Hc.
    assert ((q, t') ∈ filter (λ p, p.1 = q) (first_seen ∅ ts)) as Hin
      by (by apply list_elem_of_filter).
    rewrite Hc in Hin. by apply elem_of_nil in Hin.
Qed.

(** The loops register one Task per distinct q-point. *)
Lemma first_seen_length ts :
  length (first_seen ∅ ts) = size (list_to_set (omap qpt_of ts) : gset qpoint).
Proof.
  rewrite <- first_seen_qpoints, size_list_to_set by apply first_seen_NoDup.
  by rewrite length_fmap.
Qed.

(** Every q-point of the list is brought by one of its Tasks. *)
Lemma first_seen_has ts q :
  q ∈ omap qpt_of ts → ∃ t, (q, t) ∈ first_seen ∅ ts.
Proof.
  intros Hq.
  assert (q ∈ (list_to_set (first_seen ∅ ts).*1 : gset qpoint)) as H
    by (rewrite first_seen_qpoints; by apply elem_of_list_to_set).
  apply elem_of_list_to_set, list_elem_of_fmap in H as [[q' t] [Heq Hel]].
  simpl in Heq. subst q'. by exists t.
Qed.

(** The first Task with a q-point is the head of the list when the head has
    that q-point. *)
Lemma first_with_head ts q t t0 :
  ts !! 0 = Some t0 → qpt_of t0 = Some q → first_with ts q t → t = t0.
Proof.
  intros H0 Hq0 (j & Hj & Hq & Hfirst). destruct j as [|j]; [congruence|].
  exfalso. apply (Hfirst 0 t0); [lia|done|done].
Qed.

(** A q-point counted once is the q-point of exactly one Task. *)
Lemma count_qpt_one q ts :
  count_qpt q ts = 1 →
  ∃ e, filter (λ t, qpt_of t = Some q) ts = [e] ∧ e ∈ ts ∧ qpt_of e = Some q.
Proof.
  unfold count_qpt. intros Hc.
  destruct (filter (λ t, qpt_of t = Some q) ts) as [|e [|??]] eqn:Hf; try done.
  exists e. split; [done|].
  assert (e ∈ filter (λ t, qpt_of t = Some q) ts) as Hel by (rewrite Hf; left).
  apply list_elem_of_filter in Hel as [? ?]. done.
Qed.

Section dedup_loop.

Variable mk : qpoint → Task → Task.

Lemma dedup_body_seen t q qseen w :
  qpt_of t = Some q → q ∈ qseen → dedup_body mk t (qseen, w) = Ok (qseen, w).
Proof.
  intros Hq Hin. unfold dedup_body. rewrite (task_qpt_of _ _ Hq). simpl.
  by rewrite decide_True.
Qed.

Lemma dedup_body_new t q qseen w :
  qpt_of t = Some q → q ∉ qseen →
  dedup_body mk t (qseen, w)
  = Ok (qseen ∪ {[q]}, mkWork (work_id w) (tasks w ++ [mk q t])).
Proof.
  intros Hq Hin. unfold dedup_body. rewrite (task_qpt_of _ _ Hq). simpl.
  by rewrite decide_False.
Qed.

Lemma dedup_loop : ∀ ts qseen w,
  Forall (λ t, is_Some (qpt_of t)) ts →
  for_each (dedup_body mk) ts (qseen, w)
  = Ok (qseen ∪ list_to_set (omap qpt_of ts),
        mkWork (work_id w) (tasks w ++ (uncurry mk <$> first_seen qseen ts))).
Proof.
  induction ts as [|t ts IH]; intros qseen w Hall; simpl.
  - rewrite app_nil_r. destruct w. f_equal. f_equal. set_solver.
  - inversion Hall as [|? ? [q Hq] Hall']; subst.
    rewrite Hq. destruct (decide (q ∈ qseen)) as [Hin|Hnin].
    + rewrite (dedup_body_seen _ _ _ _ Hq Hin). simpl.
      rewrite IH by done. do 2 f_equal. set_solver.
    + rewrite (dedup_body_new _ _ _ _ Hq Hnin). simpl.
      rewrite IH by done. simpl. rewrite <- app_assoc. simpl. do 2 f_equal. set_solver.
Qed.

Hypothesis mk_qpt : ∀ q t, qpt_of (mk q t) = Some q.

Lemma count_qpt_first_seen q ts :
  count_qpt q (uncurry mk <$> first_seen ∅ ts)
  = if decide (q ∈ omap qpt_of ts) then 1 else 0.
Proof.
  unfold count_qpt.
  transitivity (length (filter (λ p, p.1 = q) (first_seen ∅ ts))).
  - induction (first_seen ∅ ts) as [|[q' t'] l IH]; [done|].
    rewrite fmap_cons, !filter_cons. simpl. rewrite mk_qpt.
    destruct (decide (q' = q)) as [->|Hne].
    + rewrite decide_True by done. simpl. by rewrite IH.
    + rewrite decide_False by congruence. done.
  - rewrite first_seen_count. repeat case_decide; try done; set_solver.
Qed.

End dedup_loop.

(** ** The flow that [GkqPathFlow.from_scf_input] returns *)

Lemma make_eph_input_qpt scf_input ngqpt q :
  GkqPathFlow.make_eph_input scf_input ngqpt q !! "qpt" = Some (VVec q).
Proof.
  unfold GkqPathFlow.make_eph_input, new_with_vars. simpl.
  rewrite !lookup_insert_ne by done. by rewrite lookup_insert_eq.
Qed.

Lemma eph_task_qpt scf_input ngqpt qmesh qpath q t :
  qpt_of (eph_task scf_input ngqpt qmesh qpath q t) = Some q.
Proof. unfold qpt_of, eph_task. simpl. by rewrite make_eph_input_qpt. Qed.

Lemma inteph_task_qpt scf_input ngqpt qmesh q t :
  qpt_of (inteph_task scf_input ngqpt qmesh q t) = Some q.
Proof.
  unfold qpt_of, inteph_task. simpl.
  rewrite lookup_insert_ne by done. by rewrite make_eph_input_qpt.
Qed.

(** Registering a Task and adding dependencies to it, as one step. *)
Lemma register_add_deps k inp ds d w :
  add_deps (register_task k inp ds w).1 d (register_task k inp ds w).2
  = mkWork (work_id w) (tasks w ++ [mkTask k inp (default [] ds ++ d) Init]).
Proof.
  unfold add_deps, register_task. simpl. f_equal.
  rewrite (alter_app_r_alt _ _ _ (length (tasks w))) by done.
  by rewrite Nat.sub_diag.
Qed.

Lemma eph_body_dedup scf_input ngqpt qmesh qpath task st :
  GkqPathFlow.eph_body scf_input ngqpt qmesh qpath task st
  = dedup_body (eph_task scf_input ngqpt qmesh qpath) task st.
Proof.
  destruct st as [qseen w]. unfold GkqPathFlow.eph_body, dedup_body.
  destruct (GkqPathFlow.task_qpt task) as [q|e]; simpl; [|done].
  case_decide; [done|]. f_equal. f_equal.
  apply (register_add_deps EphTask _ (Some (deps task))).
Qed.

Lemma inteph_body_dedup scf_input ngqpt qmesh task st :
  GkqPathFlow.inteph_body scf_input ngqpt qmesh task st
  = dedup_body (inteph_task scf_input ngqpt qmesh) task st.
Proof.
  destruct st as [qseen w]. unfold GkqPathFlow.inteph_body, dedup_body.
  destruct (GkqPathFlow.task_qpt task) as [q|e]; simpl; [|done].
  case_decide; [done|]. f_equal. f_equal.
  apply (register_add_deps EphTask _ (Some (deps task))).
Qed.

Lemma for_each_ext {A S} (f g : A → S → result S) xs s :
  (∀ x s, f x s = g x s) → for_each f xs s = for_each g xs s.
Proof.
  intros Hfg. revert s. induction xs as [|x xs IH]; intros s; simpl; [done|].
  rewrite Hfg. destruct (g x s); simpl; [apply IH|done].
Qed.

Lemma eph_loop scf_input ngqpt qmesh qpath ts w :
  Forall (λ t, is_Some (qpt_of t)) ts →
  for_each (GkqPathFlow.eph_body scf_input ngqpt qmesh qpath) ts (∅, w)
  = Ok (∅ ∪ list_to_set (omap qpt_of ts),
        mkWork (work_id w)
          (tasks w ++ (uncurry (eph_task scf_input ngqpt qmesh qpath) <$> first_seen ∅ ts))).
Proof.
  intros Hall.
  rewrite (for_each_ext _ _ _ _ (eph_body_dedup scf_input ngqpt qmesh qpath)).
  by apply dedup_loop.
Qed.

Lemma inteph_loop scf_input ngqpt qmesh ts w :
  Forall (λ t, is_Some (qpt_of t)) ts →
  for_each (GkqPathFlow.inteph_body scf_input ngqpt qmesh) ts (∅, w)
  = Ok (∅ ∪ list_to_set (omap qpt_of ts),
        mkWork (work_id w)
          (tasks w ++ (uncurry (inteph_task scf_input ngqpt qmesh) <$> first_seen ∅ ts))).
Proof.
  intros Hall.
  rewrite (for_each_ext _ _ _ _ (inteph_body_dedup scf_input ngqpt qmesh)).
  by apply dedup_loop.
Qed.

Section GkqPathFlow_lemmas.

Variable qmesh_tasks : nat → node → qpoint → bool → list Task.

Variable qpath_tasks : nat → node → list qpoint → list Task * list Task.

Lemma work_qpath_id qpath_list : work_id (wfkq_base (work_qpath qpath_tasks qpath_list)) = 2.
Proof.
  unfold work_qpath, GkqPathFlow.PhononWfkqWork_from_scf_task.
  by destruct (qpath_tasks 2 (NTask 0 0) qpath_list).
Qed.

(** The whole flow, when every upstream phonon Task has a q-point. *)
Lemma from_scf_input_flow scf_input ngqpt qpath_list with_becs test_ft_interpolation :
  upstream_ok qpath_tasks qpath_list →
  GkqPathFlow.from_scf_input qmesh_tasks qpath_tasks
    scf_input ngqpt qpath_list with_becs test_ft_interpolation
  = Ok (mkFlow ([scf_work scf_input; work_qmesh qmesh_tasks ngqpt with_becs;
                 wfkq_base (work_qpath qpath_tasks qpath_list);
                 eph_work qpath_tasks scf_input ngqpt qpath_list]
                ++ if test_ft_interpolation
                   then [inteph_work qpath_tasks scf_input ngqpt qpath_list] else [])).
Proof.
  intros Hok. unfold GkqPathFlow.from_scf_input, flow_register_scf_task, node_of. simpl.
  change (GkqPathFlow.PhononWfkqWork_from_scf_task qpath_tasks 2 (NTask 0 0)
            qpath_list) with (work_qpath qpath_tasks qpath_list).
  rewrite work_qpath_id, eph_loop by exact Hok. simpl.
  destruct test_ft_interpolation; [|done].
  rewrite inteph_loop by exact Hok. done.
Qed.

Local Abbreviation gkq_from_scf_input :=
  (GkqPathFlow.from_scf_input qmesh_tasks qpath_tasks).

Lemma eph_work_inv scf_input ngqpt qpath_list e :
  e ∈ tasks (eph_work qpath_tasks scf_input ngqpt qpath_list) →
  ∃ q task, (q, task) ∈ first_seen ∅ (phonon_tasks (work_qpath qpath_tasks qpath_list)) ∧
            e = eph_task scf_input ngqpt (NWork 1) (NWork 2) q task.
Proof. intros [[q task] [-> Hel]]%list_elem_of_fmap. by exists q, task. Qed.

Lemma inteph_work_inv scf_input ngqpt qpath_list e :
  e ∈ tasks (inteph_work qpath_tasks scf_input ngqpt qpath_list) →
  ∃ q task, (q, task) ∈ first_seen ∅ (phonon_tasks (work_qpath qpath_tasks qpath_list)) ∧
            e = inteph_task scf_input ngqpt (NWork 1) q task.
Proof. intros [[q task] [-> Hel]]%list_elem_of_fmap. by exists q, task. Qed.

Lemma eph_work_count scf_input ngqpt qpath_list q :
  count_qpt q (tasks (eph_work qpath_tasks scf_input ngqpt qpath_list))
  = if decide (q ∈ upstream_qpoints qpath_tasks qpath_list) then 1 else 0.
Proof. apply count_qpt_first_seen. intros. apply eph_task_qpt. Qed.

Lemma inteph_work_count scf_input ngqpt qpath_list q :
  count_qpt q (tasks (inteph_work qpath_tasks scf_input ngqpt qpath_list))
  = if decide (q ∈ upstream_qpoints qpath_tasks qpath_list) then 1 else 0.
Proof. apply count_qpt_first_seen. intros. apply inteph_task_qpt. Qed.

Lemma eph_work_has scf_input ngqpt qpath_list q :
  q ∈ upstream_qpoints qpath_tasks qpath_list →
  ∃ e, e ∈ tasks (eph_work qpath_tasks scf_input ngqpt qpath_list) ∧ qpt_of e = Some q.
Proof.
  intros [t Hel]%first_seen_has.
  exists (eph_task scf_input ngqpt (NWork 1) (NWork 2) q t). split; [|apply eph_task_qpt].
  apply list_elem_of_fmap. by exists (q, t).
Qed.

Lemma inteph_work_has scf_input ngqpt qpath_list q :
  q ∈ upstream_qpoints qpath_tasks qpath_list →
  ∃ e, e ∈ tasks (inteph_work qpath_tasks scf_input ngqpt qpath_list) ∧ qpt_of e = Some q.
Proof.
  intros [t Hel]%first_seen_has.
  exists (inteph_task scf_input ngqpt (NWork 1) q t). split; [|apply inteph_task_qpt].
  apply list_elem_of_fmap. by exists (q, t).
Qed.

(** C1: for every distinct q-point tuple of the upstream phonon Tasks
    exactly one eph Task is registered in [eph_work] (and exactly one in
    [inteph_work] when [test_ft_interpolation] is set); a phonon Task whose
    q-point tuple was already seen adds no Task. *)
Theorem C1_one_eph_task_per_distinct_qpoint
    scf_input ngqpt qpath_list with_becs test_ft_interpolation :
  upstream_ok qpath_tasks qpath_list →
  ∃ flow eph,
    gkq_from_scf_input scf_input ngqpt qpath_list with_becs test_ft_interpolation = Ok flow ∧
    works flow !! 3 = Some eph ∧
    Forall (λ e, kind e = EphTask) (tasks eph) ∧
    (∀ q, count_qpt q (tasks eph)
          = if decide (q ∈ upstream_qpoints qpath_tasks qpath_list) then 1 else 0) ∧
    length (tasks eph)
    = size (list_to_set (upstream_qpoints qpath_tasks qpath_list) : gset qpoint) ∧
    (if test_ft_interpolation
     then ∃ inteph,
            works flow !! 4 = Some inteph ∧
            Forall (λ e, kind e = EphTask) (tasks inteph) ∧
            (∀ q, count_qpt q (tasks inteph)
                  = if decide (q ∈ upstream_qpoints qpath_tasks qpath_list) then 1 else 0) ∧
            length (tasks inteph)
            = size (list_to_set (upstream_qpoints qpath_tasks qpath_list) : gset qpoint)
     else works flow !! 4 = None) ∧
    (∀ task q qseen w, qpt_of task = Some q → q ∈ qseen →
       GkqPathFlow.eph_body scf_input ngqpt (NWork 1) (NWork 2) task (qseen, w)
         = Ok (qseen, w) ∧
       GkqPathFlow.inteph_body scf_input ngqpt (NWork 1) task (qseen, w)
         = Ok (qseen, w)).
Proof.
  intros Hok. eexists _, (eph_work qpath_tasks scf_input ngqpt qpath_list).
  split; [by apply from_scf_input_flow|]. split; [done|].
  split; [|split; [|split; [|split]]].
  - apply Forall_fmap, Forall_forall. by intros [q t] _.
  - apply eph_work_count.
  - unfold eph_work. simpl. rewrite length_fmap. apply first_seen_length.
  - destruct test_ft_interpolation; [|done].
    exists (inteph_work qpath_tasks scf_input ngqpt qpath_list). split; [done|].
    split; [|split].
    + apply Forall_fmap, Forall_forall. by intros [q t] _.
    + apply inteph_work_count.
    + unfold inteph_work. simpl. rewrite length_fmap. apply first_seen_length.
  - intros task q qseen w Hq Hin. split.
    + rewrite eph_body_dedup. by apply (dedup_body_seen _ _ q).
    + rewrite inteph_body_dedup. by apply (dedup_body_seen _ _ q).
Qed.

Lemma first_seen_all_seen : ∀ ts (qseen : gset qpoint),
  (∀ q, q ∈ omap qpt_of ts → q ∈ qseen) → first_seen qseen ts = [].
Proof.
  induction ts as [|t ts IH]; intros qseen Hall; simpl; [done|].
  simpl in Hall. destruct (qpt_of t) as [q|].
  - assert (q ∈ qseen) as Hq by (apply Hall; apply elem_of_cons; by left).
    rewrite decide_True by done.
    apply IH. intros q' Hq'. apply Hall. by right.
  - by apply IH.
Qed.

(** C3: the seen-set is scoped to one construction pass.  With
    [test_ft_interpolation] every distinct q-point tuple gives one eph Task
    in [eph_work] and a second one in [inteph_work]; had the second pass
    started from the seen-set left by the first, it would have registered
    nothing. *)
Theorem C3_seen_set_scoped_per_pass scf_input ngqpt qpath_list with_becs :
  upstream_ok qpath_tasks qpath_list →
  ∃ flow eph inteph,
    gkq_from_scf_input scf_input ngqpt qpath_list with_becs true = Ok flow ∧
    works flow !! 3 = Some eph ∧
    works flow !! 4 = Some inteph ∧
    (∀ q, q ∈ upstream_qpoints qpath_tasks qpath_list →
       count_qpt q (tasks eph) = 1 ∧
       count_qpt q (tasks inteph) = 1 ∧
       count_qpt q (tasks eph ++ tasks inteph) = 2) ∧
    (∃ qseen,
       for_each (GkqPathFlow.eph_body scf_input ngqpt (NWork 1) (NWork 2))
         (phonon_tasks (work_qpath qpath_tasks qpath_list)) (∅, new_work 3) = Ok (qseen, eph) ∧
       for_each (GkqPathFlow.inteph_body scf_input ngqpt (NWork 1))
         (phonon_tasks (work_qpath qpath_tasks qpath_list)) (∅, new_work 4)
       = Ok (qseen, inteph) ∧
       for_each (GkqPathFlow.inteph_body scf_input ngqpt (NWork 1))
         (phonon_tasks (work_qpath qpath_tasks qpath_list)) (qseen, new_work 4)
       = Ok (qseen, new_work 4)).
Proof.
  intros Hok.
  eexists _, (eph_work qpath_tasks scf_input ngqpt qpath_list),
    (inteph_work qpath_tasks scf_input ngqpt qpath_list).
  split; [by apply (from_scf_input_flow _ _ _ _ true)|]. split; [done|]. split; [done|].
  split.
  - intros q Hq. unfold count_qpt. rewrite filter_app, length_app.
    fold (count_qpt q (tasks (eph_work qpath_tasks scf_input ngqpt qpath_list))).
    fold (count_qpt q (tasks (inteph_work qpath_tasks scf_input ngqpt qpath_list))).
    rewrite eph_work_count, inteph_work_count. by rewrite decide_True.
  - eexists. split; [by apply eph_loop|]. split; [by apply inteph_loop|].
    rewrite (for_each_ext _ _ _ _ (inteph_body_dedup scf_input ngqpt (NWork 1))).
    rewrite dedup_loop by apply Hok.
    rewrite first_seen_all_seen by set_solver. simpl. f_equal. f_equal. set_solver.
Qed.

(** The edges of the dependencies appended by the two loops. *)
Lemma edges_of_app d1 d2 es1 es2 :
  edges_of d1 = Some es1 → edges_of d2 = Some es2 →
  edges_of (d1 ++ d2) = Some (es1 ++ es2).
Proof.
  unfold edges_of. revert es1. induction d1 as [|kv d1 IH]; intros es1; simpl.
  - intros [= <-]. done.
  - destruct (dep_edges kv) as [e|]; simpl; [|done].
    destruct (mapM dep_edges d1) as [ess1|] eqn:H1; simpl; [|done].
    intros [= <-] H2. specialize (IH _ eq_refl H2).
    destruct (mapM dep_edges (d1 ++ d2)) as [ess|]; simpl in *; [|done].
    injection IH as IH. by rewrite IH, app_assoc.
Qed.

(** C6: the ab-initio Work holds an eph Task for every upstream q-point,
    and each of its eph Tasks carries the dependencies of its upstream phonon
    Task together with an edge on [work_qmesh] for "DDB" and an edge on
    [work_qpath] for "DVDB"; the interpolation Work, built under
    [test_ft_interpolation], holds an eph Task for every upstream q-point as
    well, and each of them carries the upstream dependencies and two edges on
    the single producer [work_qmesh], for "DDB" and "DVDB". *)
Theorem C6_eph_tasks_cross_work_edges
    scf_input ngqpt qpath_list with_becs test_ft_interpolation :
  upstream_ok qpath_tasks qpath_list →
  ∃ flow qmesh qpath eph,
    gkq_from_scf_input scf_input ngqpt qpath_list with_becs test_ft_interpolation = Ok flow ∧
    works flow !! 1 = Some qmesh ∧ qmesh = work_qmesh qmesh_tasks ngqpt with_becs ∧
    works flow !! 2 = Some qpath ∧ qpath = wfkq_base (work_qpath qpath_tasks qpath_list) ∧
    works flow !! 3 = Some eph ∧
    (∀ q, q ∈ upstream_qpoints qpath_tasks qpath_list →
       ∃ e, e ∈ tasks eph ∧ qpt_of e = Some q) ∧
    (∀ e, e ∈ tasks eph →
       ∃ q task,
         kind e = EphTask ∧
         qpt_of e = Some q ∧
         first_with (phonon_tasks (work_qpath qpath_tasks qpath_list)) q task ∧
         deps e = deps task ++ [(ONode (NWork (work_id qmesh)), OStr "DDB");
                                (ONode (NWork (work_id qpath)), OStr "DVDB")] ∧
         ∀ upstream, edges_of (deps task) = Some upstream →
           edges_of (deps e)
           = Some (upstream ++ [(NWork (work_id qmesh), "DDB");
                                (NWork (work_id qpath), "DVDB")])) ∧
    (if test_ft_interpolation
     then ∃ inteph,
            works flow !! 4 = Some inteph ∧
            (∀ q, q ∈ upstream_qpoints qpath_tasks qpath_list →
               ∃ e, e ∈ tasks inteph ∧ qpt_of e = Some q) ∧
            (∀ e, e ∈ tasks inteph →
               ∃ q task,
                 kind e = EphTask ∧
                 qpt_of e = Some q ∧
                 first_with (phonon_tasks (work_qpath qpath_tasks qpath_list)) q task ∧
                 deps e
                 = deps task ++ [(ONode (NWork (work_id qmesh)), OStrs ["DDB"; "DVDB"])] ∧
                 ∀ upstream, edges_of (deps task) = Some upstream →
                   edges_of (deps e)
                   = Some (upstream ++ [(NWork (work_id qmesh), "DDB");
                                        (NWork (work_id qmesh), "DVDB")]))
     else works flow !! 4 = None).
Proof.
  intros Hok. eexists _, _, _, (eph_work qpath_tasks scf_input ngqpt qpath_list).
  split; [by apply from_scf_input_flow|].
  split; [done|]. split; [done|]. split; [done|]. split; [done|]. split; [done|].
  rewrite work_qpath_id. simpl. split; [|split].
  - intros q Hq. by apply eph_work_has.
  - intros e (q & task & Hel & ->)%eph_work_inv.
    apply first_seen_first in Hel as [_ Hfirst].
    exists q, task. split; [done|]. split; [apply eph_task_qpt|].
    split; [done|]. split; [done|].
    intros upstream Hup. by apply edges_of_app.
  - destruct test_ft_interpolation; [|done].
    exists (inteph_work qpath_tasks scf_input ngqpt qpath_list). split; [done|]. split.
    + intros q Hq. by apply inteph_work_has.
    + intros e (q & task & Hel & ->)%inteph_work_inv.
      apply first_seen_first in Hel as [_ Hfirst].
      exists q, task. split; [done|]. split; [apply inteph_task_qpt|].
      split; [done|]. split; [done|].
      intros upstream Hup. by apply edges_of_app.
Qed.

(** C2, as amended: in each construction pass, two phonon Tasks with equal
    q-point tuples give exactly one eph Task, which carries the dependencies
    of the first phonon Task with that tuple, and the request that comes
    later leaves the Work as it is; two phonon Tasks with different tuples
    give two distinct eph Tasks, whatever the physical relation of the
    points.  The passes are the one that fills the ab-initio Work and, under
    [test_ft_interpolation], the one that fills the interpolation Work. *)
Theorem C2_equal_tuples_give_one_task
    scf_input ngqpt qpath_list with_becs test_ft_interpolation t1 t2 q1 q2 :
  upstream_ok qpath_tasks qpath_list →
  t1 ∈ phonon_tasks (work_qpath qpath_tasks qpath_list) →
  t2 ∈ phonon_tasks (work_qpath qpath_tasks qpath_list) →
  qpt_of t1 = Some q1 →
  qpt_of t2 = Some q2 →
  ∃ flow eph,
    gkq_from_scf_input scf_input ngqpt qpath_list with_becs test_ft_interpolation = Ok flow ∧
    works flow !! 3 = Some eph ∧
    (q1 = q2 →
       ∃ e task,
         filter (λ t, qpt_of t = Some q1) (tasks eph) = [e] ∧
         first_with (phonon_tasks (work_qpath qpath_tasks qpath_list)) q1 task ∧
         deps e = deps task ++ [(ONode (NWork 1), OStr "DDB");
                                (ONode (NWork 2), OStr "DVDB")]) ∧
    (q1 ≠ q2 →
       ∃ e1 e2, e1 ∈ tasks eph ∧ e2 ∈ tasks eph ∧
                qpt_of e1 = Some q1 ∧ qpt_of e2 = Some q2 ∧ e1 ≠ e2) ∧
    (if test_ft_interpolation
     then ∃ inteph,
            works flow !! 4 = Some inteph ∧
            (q1 = q2 →
               ∃ e task,
                 filter (λ t, qpt_of t = Some q1) (tasks inteph) = [e] ∧
                 first_with (phonon_tasks (work_qpath qpath_tasks qpath_list)) q1 task ∧
                 deps e = deps task ++ [(ONode (NWork 1), OStrs ["DDB"; "DVDB"])]) ∧
            (q1 ≠ q2 →
               ∃ e1 e2, e1 ∈ tasks inteph ∧ e2 ∈ tasks inteph ∧
                        qpt_of e1 = Some q1 ∧ qpt_of e2 = Some q2 ∧ e1 ≠ e2)
     else works flow !! 4 = None) ∧
    (∀ qseen w, q1 = q2 → q1 ∈ qseen →
       GkqPathFlow.eph_body scf_input ngqpt (NWork 1) (NWork 2) t2 (qseen, w)
         = Ok (qseen, w) ∧
       GkqPathFlow.inteph_body scf_input ngqpt (NWork 1) t2 (qseen, w)
         = Ok (qseen, w)).
Proof.
  intros Hok Ht1 Ht2 Hq1 Hq2.
  assert (q1 ∈ upstream_qpoints qpath_tasks qpath_list) as Hu1
    by (apply list_elem_of_omap; eauto).
  assert (q2 ∈ upstream_qpoints qpath_tasks qpath_list) as Hu2
    by (apply list_elem_of_omap; eauto).
  pose proof (eph_work_count scf_input ngqpt qpath_list q1) as Hc1.
  pose proof (eph_work_count scf_input ngqpt qpath_list q2) as Hc2.
  pose proof (inteph_work_count scf_input ngqpt qpath_list q1) as Hi1.
  pose proof (inteph_work_count scf_input ngqpt qpath_list q2) as Hi2.
  rewrite decide_True in Hc1 by done. rewrite decide_True in Hc2 by done.
  rewrite decide_True in Hi1 by done. rewrite decide_True in Hi2 by done.
  apply count_qpt_one in Hc1 as (e1 & Hf1 & Hel1 & Hqe1).
  apply count_qpt_one in Hc2 as (e2 & Hf2 & Hel2 & Hqe2).
  apply count_qpt_one in Hi1 as (i1 & Hg1 & Hil1 & Hqi1).
  apply count_qpt_one in Hi2 as (i2 & Hg2 & Hil2 & Hqi2).
  eexists _, (eph_work qpath_tasks scf_input ngqpt qpath_list).
  split; [by apply from_scf_input_flow|]. split; [done|].
  split; [|split; [|split]].
  - intros _. exists e1.
    apply eph_work_inv in Hel1 as (q & task & Hel & ->).
    rewrite eph_task_qpt in Hqe1. injection Hqe1 as ->.
    apply first_seen_first in Hel as [_ Hfirst]. by exists task.
  - intros Hne. exists e1, e2. repeat split; try done. intros ->. congruence.
  - destruct test_ft_interpolation; [|done].
    exists (inteph_work qpath_tasks scf_input ngqpt qpath_list). split; [done|]. split.
    + intros _. exists i1.
      apply inteph_work_inv in Hil1 as (q & task & Hel & ->).
      rewrite inteph_task_qpt in Hqi1. injection Hqi1 as ->.
      apply first_seen_first in Hel as [_ Hfirst]. by exists task.
    + intros Hne. exists i1, i2. repeat split; try done. intros ->. congruence.
  - intros qseen w <- Hin. split.
    + rewrite eph_body_dedup. by apply (dedup_body_seen _ _ q1).
    + rewrite inteph_body_dedup. by apply (dedup_body_seen _ _ q1).
Qed.

End GkqPathFlow_lemmas.

(** ** [ElasticWork.on_all_ok] *)

(** C7: whenever [on_all_ok] returns, it returns the Results object with
    returncode 0 and message "DDB merge done", and it returns exactly when
    [merge_ddb_files(delete_source_ddbs=False, only_dfpt_tasks=False)] has
    returned. *)
Theorem C7_on_all_ok_returns_merge_done
    (merge_ddb_files : Work → bool → bool → result string) (self : Work)
    (res : ElasticWork.Results) :
  (ElasticWork.on_all_ok merge_ddb_files self).2 = Ok res
  ↔ (∃ out_ddb, merge_ddb_files self false false = Ok out_ddb) ∧
    res = ElasticWork.mkResults (work_id self) 0 "DDB merge done".
Proof.
  unfold ElasticWork.on_all_ok. simpl.
  destruct (merge_ddb_files self false false) as [out|e]; simpl.
  - split; [intros [= <-]; eauto|]. by intros [_ ->].
  - split; [done|]. by intros [[? ?] _].
Qed.

(** C8, as amended: when the DDB consolidation raises, the exception leaves
    [on_all_ok] and no Results object is returned; the Results that
    [on_all_ok] builds always has returncode 0; the member Tasks and their
    statuses are left as they were. *)
Theorem C8_merge_failure_escapes
    (merge_ddb_files : Work → bool → bool → result string) (self : Work) (e : exn) :
  merge_ddb_files self false false = Raise e →
  (ElasticWork.on_all_ok merge_ddb_files self).2 = Raise e ∧
  (∀ res, (ElasticWork.on_all_ok merge_ddb_files self).2 ≠ Ok res) ∧
  (∀ merge' self' res, (ElasticWork.on_all_ok merge' self').2 = Ok res →
     ElasticWork.returncode res = 0%Z) ∧
  status <$> tasks (ElasticWork.on_all_ok merge_ddb_files self).1 = status <$> tasks self.
Proof.
  intros He. unfold ElasticWork.on_all_ok. simpl. rewrite He. simpl.
  split; [done|]. split; [done|]. split; [|done].
  intros merge' self' res. destruct (merge' self' false false); simpl; [|done].
  by intros [= <-].
Qed.

(** C8, counterexample: the consolidation fails and [on_all_ok] raises; no
    Result with a failure code is produced. *)
Lemma C8_failure_is_not_reported :
  failing_merge finished_work false false = Raise merge_error ∧
  (ElasticWork.on_all_ok failing_merge finished_work).2 = Raise merge_error ∧
  ¬ reports_failure failing_merge finished_work.
Proof.
  split; [done|]. split; [done|].
  intros H. destruct (H _ eq_refl) as (res & Hres & _). discriminate Hres.
Qed.

Lemma C8_merge_failure_escapes_witness :
  failing_merge finished_work false false = Raise merge_error ∧
  (ElasticWork.on_all_ok failing_merge finished_work).2 = Raise merge_error ∧
  status <$> tasks (ElasticWork.on_all_ok failing_merge finished_work).1
  = [Succeeded; Succeeded].
Proof.
  split; [reflexivity|].
  destruct (C8_merge_failure_escapes failing_merge finished_work merge_error eq_refl)
    as (H1 & _ & _ & H2).
  split; [exact H1|exact H2].
Defined.

Lemma q_half_equivalent : lattice_equivalent q_half q_minus_half.
Proof.
  repeat constructor.
  - exists 1%Z. by apply Qc_is_canon.
  - exists 0%Z. by apply Qc_is_canon.
  - exists 0%Z. by apply Qc_is_canon.
Qed.

Lemma q_half_differs : q_half ≠ q_minus_half.
Proof. intros H. by injection H. Qed.

Lemma sample_upstream_ok :
  upstream_ok sample_PhononWfkqWork_tasks [q_half; q_minus_half].
Proof. repeat constructor; by eexists. Qed.

Lemma sample_upstream_qpoints :
  upstream_qpoints sample_PhononWfkqWork_tasks [q_half; q_minus_half]
  = [q_half; q_half; q_minus_half; q_minus_half].
Proof. reflexivity. Qed.

Lemma sample_first_seen :
  ∃ t1 t2, sample_phonon_tasks !! 0 = Some t1 ∧ sample_phonon_tasks !! 2 = Some t2 ∧
           first_seen ∅ sample_phonon_tasks = [(q_half, t1); (q_minus_half, t2)].
Proof. eexists _, _. split; [reflexivity|]. split; [reflexivity|]. vm_compute. reflexivity. Qed.

(** C2, counterexample: the two zone-boundary points are equivalent but
    their tuples differ, and [eph_work] gets one Task for each. *)
Lemma C2_equivalent_qpoints_give_two_tasks :
  ∃ flow eph t1 t2 e1 e2,
    GkqPathFlow.from_scf_input sample_PhononWork_tasks sample_PhononWfkqWork_tasks
      sample_scf_input sample_ngqpt [q_half; q_minus_half] false true = Ok flow ∧
    works flow !! 3 = Some eph ∧
    t1 ∈ sample_phonon_tasks ∧ t2 ∈ sample_phonon_tasks ∧
    qpt_of t1 = Some q_half ∧ qpt_of t2 = Some q_minus_half ∧
    lattice_equivalent q_half q_minus_half ∧
    tasks eph = [e1; e2] ∧
    qpt_of e1 = Some q_half ∧ qpt_of e2 = Some q_minus_half ∧ e1 ≠ e2.
Proof.
  destruct sample_first_seen as (t1 & t2 & H1 & H2 & Hfs).
  eexists _, _, t1, t2,
    (eph_task sample_scf_input sample_ngqpt (NWork 1) (NWork 2) q_half t1),
    (eph_task sample_scf_input sample_ngqpt (NWork 1) (NWork 2) q_minus_half t2).
  split; [apply from_scf_input_flow, sample_upstream_ok|]. split; [done|].
  split; [by eapply list_elem_of_lookup_2|]. split; [by eapply list_elem_of_lookup_2|].
  split; [by injection H1 as <-|]. split; [by injection H2 as <-|].
  split; [apply q_half_equivalent|].
  split.
  { change (tasks (eph_work sample_PhononWfkqWork_tasks sample_scf_input sample_ngqpt
                     [q_half; q_minus_half]))
      with (uncurry (eph_task sample_scf_input sample_ngqpt (NWork 1) (NWork 2))
              <$> first_seen ∅ sample_phonon_tasks).
    rewrite Hfs. reflexivity. }
  split; [apply eph_task_qpt|]. split; [apply eph_task_qpt|].
  intros Heq. apply (f_equal qpt_of) in Heq. rewrite !eph_task_qpt in Heq.
  injection Heq as Heq. by apply q_half_differs.
Qed.

(** ** The dependency dicts of both constructors *)

(** The Work of an [ElasticWork]: the first Task with the dependencies the
    caller gave, then wired Tasks. *)
Lemma elastic_work_shape make_ddk_inputs make_dde_inputs make_strain_perts_inputs
    new_with_vars
    wid scf_input ion piezo dde tolerances den_deps new :
  ElasticWork.from_scf_input make_ddk_inputs make_dde_inputs make_strain_perts_inputs
      new_with_vars
    wid scf_input ion piezo dde tolerances den_deps = Ok new →
  ∃ t0 rest, new = mkWork wid (t0 :: rest) ∧ deps t0 = default [] den_deps ∧
             Forall wired rest.
Proof.
  intros Hrun.
  destruct (wfk_phase_cases new_with_vars scf_input (default ∅ tolerances) den_deps wid)
    as [(t0 & H & Hdeps)|[_ H]].
  - destruct (from_scf_input_tasks make_ddk_inputs make_dde_inputs make_strain_perts_inputs
                new_with_vars
                wid scf_input ion piezo dde tolerances den_deps t0 H) as (rest & Hr & Hall).
    rewrite Hr in Hrun. injection Hrun as <-. by exists t0, rest.
  - rewrite (from_scf_input_raise make_ddk_inputs make_dde_inputs make_strain_perts_inputs
               new_with_vars
               _ _ ion piezo dde _ _ _ H) in Hrun. done.
Qed.

(** The eph Tasks of a [GkqPathFlow]: the dependencies of an upstream
    phonon Task, then one of the two dicts of lines 71 and 86. *)
Lemma gkq_flow_shape PhononWork_tasks PhononWfkqWork_tasks
    scf_input ngqpt qpath_list with_becs test_ft_interpolation flow w e :
  upstream_ok PhononWfkqWork_tasks qpath_list →
  GkqPathFlow.from_scf_input PhononWork_tasks PhononWfkqWork_tasks
    scf_input ngqpt qpath_list with_becs test_ft_interpolation = Ok flow →
  works flow !! 3 = Some w ∨ works flow !! 4 = Some w →
  e ∈ tasks w →
  ∃ task d, task ∈ phonon_tasks (work_qpath PhononWfkqWork_tasks qpath_list) ∧
            deps e = deps task ++ d ∧
            (d = [(ONode (NWork 1), OStr "DDB"); (ONode (NWork 2), OStr "DVDB")] ∨
             d = [(ONode (NWork 1), OStrs ["DDB"; "DVDB"])]).
Proof.
  intros Hok Hrun Hw Hel.
  rewrite (from_scf_input_flow PhononWork_tasks PhononWfkqWork_tasks) in Hrun by done.
  injection Hrun as <-.
  assert (∀ q task, (q, task) ∈ first_seen ∅
                      (phonon_tasks (work_qpath PhononWfkqWork_tasks qpath_list)) →
            task ∈ phonon_tasks (work_qpath PhononWfkqWork_tasks qpath_list)) as Hin.
  { intros q task [_ (j & Hj & _)]%first_seen_first. by eapply list_elem_of_lookup_2. }
  destruct Hw as [Hw|Hw].
  - injection Hw as <-. apply eph_work_inv in Hel as (q & task & Hfs & ->).
    eexists task, _. split; [by eapply Hin|]. split; [done|]. by left.
  - destruct test_ft_interpolation; [|done].
    injection Hw as <-. apply inteph_work_inv in Hel as (q & task & Hfs & ->).
    eexists task, _. split; [by eapply Hin|]. split; [done|]. by right.
Qed.

(** C4, as amended: every [deps] dict that the source builds, at every
    registration and [add_deps] call, goes from the producer node (a Task or
    a Work) to one artifact name or a list of artifact names.  The first Task
    of an [ElasticWork] gets the [den_deps] of the caller; the eph Tasks of a
    [GkqPathFlow] get the dependencies of an upstream phonon Task, followed
    by the dict built in the source. *)
Theorem C4_deps_go_from_producer_to_names :
  (∀ make_ddk_inputs make_dde_inputs make_strain_perts_inputs new_with_vars
     wid scf_input ion piezo dde tolerances den_deps new,
     ElasticWork.from_scf_input make_ddk_inputs make_dde_inputs make_strain_perts_inputs
       new_with_vars
       wid scf_input ion piezo dde tolerances den_deps = Ok new →
     ∃ t0 rest, tasks new = t0 :: rest ∧ deps t0 = default [] den_deps ∧
                Forall (λ t, producer_to_names (deps t) = true) rest) ∧
  (∀ PhononWork_tasks PhononWfkqWork_tasks
     scf_input ngqpt qpath_list with_becs test_ft_interpolation flow w e,
     upstream_ok PhononWfkqWork_tasks qpath_list →
     GkqPathFlow.from_scf_input PhononWork_tasks PhononWfkqWork_tasks
       scf_input ngqpt qpath_list with_becs test_ft_interpolation = Ok flow →
     works flow !! 3 = Some w ∨ works flow !! 4 = Some w →
     e ∈ tasks w →
     ∃ task d, task ∈ phonon_tasks (work_qpath PhononWfkqWork_tasks qpath_list) ∧
               deps e = deps task ++ d ∧
               producer_to_names d = true ∧ name_to_producer d = false).
Proof.
  split.
  - intros ???????????? Hrun.
    apply elastic_work_shape in Hrun as (t0 & rest & -> & Hdeps & Hall).
    exists t0, rest. split; [done|]. split; [done|].
    eapply Forall_impl; [exact Hall|]. intros t. apply source_built_producer_to_names.
  - intros ?????????? Hok Hrun Hw Hel.
    destruct (gkq_flow_shape _ _ _ _ _ _ _ _ _ _ Hok Hrun Hw Hel)
      as (task & d & Hin & Hdeps & [->| ->]); by eexists task, _.
Qed.

(** C5, as amended: every dependency edge that the two constructors build
    themselves is labelled "WFK", "DDK", "DDB" or "DVDB".  The edges they
    pass on, from [den_deps] and from the dependencies of the upstream phonon
    Tasks, keep the names they came with. *)
Theorem C5_built_edges_in_vocabulary :
  (∀ make_ddk_inputs make_dde_inputs make_strain_perts_inputs new_with_vars
     wid scf_input ion piezo dde tolerances den_deps new,
     ElasticWork.from_scf_input make_ddk_inputs make_dde_inputs make_strain_perts_inputs
       new_with_vars
       wid scf_input ion piezo dde tolerances den_deps = Ok new →
     ∃ t0 rest, tasks new = t0 :: rest ∧ deps t0 = default [] den_deps ∧
                Forall (λ t, ∃ es, edges_of (deps t) = Some es ∧
                                   Forall (λ e, e.2 ∈ vocabulary) es) rest) ∧
  (∀ PhononWork_tasks PhononWfkqWork_tasks
     scf_input ngqpt qpath_list with_becs test_ft_interpolation flow w e,
     upstream_ok PhononWfkqWork_tasks qpath_list →
     GkqPathFlow.from_scf_input PhononWork_tasks PhononWfkqWork_tasks
       scf_input ngqpt qpath_list with_becs test_ft_interpolation = Ok flow →
     works flow !! 3 = Some w ∨ works flow !! 4 = Some w →
     e ∈ tasks w →
     ∃ task d es, task ∈ phonon_tasks (work_qpath PhononWfkqWork_tasks qpath_list) ∧
                  deps e = deps task ++ d ∧
                  edges_of d = Some es ∧ Forall (λ e, e.2 ∈ vocabulary) es).
Proof.
  split.
  - intros ???????????? Hrun.
    apply elastic_work_shape in Hrun as (t0 & rest & -> & Hdeps & Hall).
    exists t0, rest. split; [done|]. split; [done|].
    eapply Forall_impl; [exact Hall|]. intros t. apply source_built_edges.
  - intros ?????????? Hok Hrun Hw Hel.
    destruct (gkq_flow_shape _ _ _ _ _ _ _ _ _ _ Hok Hrun Hw Hel)
      as (task & d & Hin & Hdeps & [->| ->]).
    + eexists task, _, _. split; [done|]. split; [done|]. split; [reflexivity|].
      repeat constructor; simpl; set_solver.
    + eexists task, _, _. split; [done|]. split; [done|]. split; [reflexivity|].
      repeat constructor; simpl; set_solver.
Qed.

(** C4, counterexample: the DDK Task of an [ElasticWork] is registered with
    [{wfk_task: "WFK"}], whose key is the producer Task and whose value is
    the artifact name. *)
Lemma C4_deps_key_is_the_producer :
  ∃ new t,
    ElasticWork.from_scf_input sample_ddk_inputs sample_dde_inputs sample_strain_inputs
      sample_new_with_vars
      0 sample_scf_input true true false None None = Ok new ∧
    tasks new !! 1 = Some t ∧
    kind t = DdkTask ∧
    deps t = [(ONode (NTask 0 0), OStr "WFK")] ∧
    name_to_producer (deps t) = false.
Proof.
  eexists _, _. split; [vm_compute; reflexivity|]. split; [reflexivity|]. done.
Qed.

(** C5, counterexample: the eph Task for the first q-point carries the edge
    on the "WFQ" file of the upstream Task, and "WFQ" is not in the
    vocabulary. *)
Lemma C5_passed_on_edge_outside_vocabulary :
  ∃ flow eph e es,
    GkqPathFlow.from_scf_input sample_PhononWork_tasks sample_PhononWfkqWork_tasks
      sample_scf_input sample_ngqpt [q_half; q_minus_half] false true = Ok flow ∧
    works flow !! 3 = Some eph ∧
    tasks eph !! 0 = Some e ∧
    edges_of (deps e) = Some es ∧
    (NTask 2 0, "WFQ") ∈ es ∧
    "WFQ" ∉ vocabulary.
Proof.
  destruct sample_first_seen as (t1 & t2 & H1 & H2 & Hfs).
  eexists _, _, (eph_task sample_scf_input sample_ngqpt (NWork 1) (NWork 2) q_half t1), _.
  split; [apply from_scf_input_flow, sample_upstream_ok|]. split; [done|].
  split.
  { change (tasks (eph_work sample_PhononWfkqWork_tasks sample_scf_input sample_ngqpt
                     [q_half; q_minus_half]))
      with (uncurry (eph_task sample_scf_input sample_ngqpt (NWork 1) (NWork 2))
              <$> first_seen ∅ sample_phonon_tasks).
    rewrite Hfs. reflexivity. }
  injection H1 as <-. split; [reflexivity|]. split; [set_solver|].
  unfold vocabulary. set_solver.
Qed.

(** C10, counterexample: with [tolerances = {"nscf": {}}] and [den_deps]
    given, the key "nscf" is present in [tolerances], and yet no NSCF Task is
    registered: the read of [tolerances["nscf"]["tolwfr"]] raises [KeyError]
    and the constructor returns no Work. *)
Lemma C10_nscf_without_tolwfr_raises :
  is_Some (({["nscf" := ∅]} : tolerances_dict) !! "nscf") ∧
  ElasticWork.from_scf_input sample_ddk_inputs sample_dde_inputs sample_strain_inputs
    sample_new_with_vars
    0 sample_scf_input true false false
    (Some {["nscf" := ∅]}) (Some [(ONode (NTask 9 0), OStr "DEN")])
  = Raise (KeyError "tolwfr").
Proof. split; [by eexists|reflexivity]. Qed.

(** ** The theorems at the sample inputs *)

Lemma C1_one_eph_task_per_distinct_qpoint_witness :
  upstream_ok sample_PhononWfkqWork_tasks [q_half; q_minus_half] ∧
  ∃ flow eph,
    GkqPathFlow.from_scf_input sample_PhononWork_tasks sample_PhononWfkqWork_tasks
      sample_scf_input sample_ngqpt [q_half; q_minus_half] false true = Ok flow ∧
    works flow !! 3 = Some eph ∧
    count_qpt q_half (tasks eph) = 1 ∧
    length (tasks eph) = 2.
Proof.
  assert (upstream_ok sample_PhononWfkqWork_tasks [q_half; q_minus_half]) as Hok
    by (repeat constructor; eexists; reflexivity).
  split; [exact Hok|].
  destruct (C1_one_eph_task_per_distinct_qpoint
              sample_PhononWork_tasks sample_PhononWfkqWork_tasks
              sample_scf_input sample_ngqpt [q_half; q_minus_half] false true Hok)
    as (flow & eph & Hrun & Hw & _ & Hcount & Hlen & _).
  exists flow, eph. split; [exact Hrun|]. split; [exact Hw|]. split.
  - rewrite Hcount. vm_compute. reflexivity.
  - rewrite Hlen. vm_compute. reflexivity.
Defined.

Lemma C2_equal_tuples_give_one_task_witness :
  upstream_ok sample_PhononWfkqWork_tasks [q_half; q_minus_half] ∧
  ∃ t1 t2 flow eph inteph e e',
    sample_phonon_tasks !! 0 = Some t1 ∧ sample_phonon_tasks !! 1 = Some t2 ∧
    qpt_of t1 = Some q_half ∧ qpt_of t2 = Some q_half ∧
    GkqPathFlow.from_scf_input sample_PhononWork_tasks sample_PhononWfkqWork_tasks
      sample_scf_input sample_ngqpt [q_half; q_minus_half] false true = Ok flow ∧
    works flow !! 3 = Some eph ∧
    filter (λ t, qpt_of t = Some q_half) (tasks eph) = [e] ∧
    deps e = deps t1 ++ [(ONode (NWork 1), OStr "DDB"); (ONode (NWork 2), OStr "DVDB")] ∧
    works flow !! 4 = Some inteph ∧
    filter (λ t, qpt_of t = Some q_half) (tasks inteph) = [e'] ∧
    deps e' = deps t1 ++ [(ONode (NWork 1), OStrs ["DDB"; "DVDB"])].
Proof.
  assert (upstream_ok sample_PhononWfkqWork_tasks [q_half; q_minus_half]) as Hok
    by (repeat constructor; eexists; reflexivity).
  split; [exact Hok|].
  destruct (C2_equal_tuples_give_one_task
              sample_PhononWork_tasks sample_PhononWfkqWork_tasks
              sample_scf_input sample_ngqpt [q_half; q_minus_half] false true
              _ _ q_half q_half Hok
              (list_elem_of_lookup_2 sample_phonon_tasks 0 _ eq_refl)
              (list_elem_of_lookup_2 sample_phonon_tasks 1 _ eq_refl)
              eq_refl eq_refl)
    as (flow & eph & Hrun & Hw & Hsame & _ & (inteph & Hw4 & Hsame' & _) & _).
  destruct (Hsame eq_refl) as (e & task & He & Hfw & Hdeps).
  destruct (Hsame' eq_refl) as (e' & task' & He' & Hfw' & Hdeps').
  apply (first_with_head sample_phonon_tasks q_half _ _ eq_refl eq_refl) in Hfw.
  apply (first_with_head sample_phonon_tasks q_half _ _ eq_refl eq_refl) in Hfw'.
  subst task task'.
  eexists _, _, flow, eph, inteph, e, e'.
  split; [reflexivity|]. split; [reflexivity|]. split; [reflexivity|].
  split; [reflexivity|]. split; [exact Hrun|]. split; [exact Hw|]. split; [exact He|].
  split; [exact Hdeps|]. split; [exact Hw4|]. split; [exact He'|]. exact Hdeps'.
Defined.

Lemma C3_seen_set_scoped_per_pass_witness :
  upstream_ok sample_PhononWfkqWork_tasks [q_half; q_minus_half] ∧
  ∃ flow eph inteph,
    GkqPathFlow.from_scf_input sample_PhononWork_tasks sample_PhononWfkqWork_tasks
      sample_scf_input sample_ngqpt [q_half; q_minus_half] false true = Ok flow ∧
    works flow !! 3 = Some eph ∧
    works flow !! 4 = Some inteph ∧
    count_qpt q_minus_half (tasks eph) = 1 ∧
    count_qpt q_minus_half (tasks inteph) = 1 ∧
    count_qpt q_minus_half (tasks eph ++ tasks inteph) = 2.
Proof.
  assert (upstream_ok sample_PhononWfkqWork_tasks [q_half; q_minus_half]) as Hok
    by (repeat constructor; eexists; reflexivity).
  split; [exact Hok|].
  destruct (C3_seen_set_scoped_per_pass
              sample_PhononWork_tasks sample_PhononWfkqWork_tasks
              sample_scf_input sample_ngqpt [q_half; q_minus_half] false Hok)
    as (flow & eph & inteph & Hrun & Hw3 & Hw4 & Hcount & _).
  exists flow, eph, inteph. split; [exact Hrun|]. split; [exact Hw3|]. split; [exact Hw4|].
  apply Hcount. rewrite sample_upstream_qpoints. set_solver.
Defined.

Lemma C6_eph_tasks_cross_work_edges_witness :
  upstream_ok sample_PhononWfkqWork_tasks [q_half; q_minus_half] ∧
  ∃ flow qmesh qpath eph inteph e e',
    GkqPathFlow.from_scf_input sample_PhononWork_tasks sample_PhononWfkqWork_tasks
      sample_scf_input sample_ngqpt [q_half; q_minus_half] false true = Ok flow ∧
    works flow !! 1 = Some qmesh ∧ work_id qmesh = 1 ∧
    works flow !! 2 = Some qpath ∧ work_id qpath = 2 ∧
    works flow !! 3 = Some eph ∧
    e ∈ tasks eph ∧
    qpt_of e = Some q_half ∧
    deps e = [(ONode (NTask 2 0), OStr "WFQ"); (ONode (NTask 0 0), OStr "WFK");
              (ONode (NWork 1), OStr "DDB"); (ONode (NWork 2), OStr "DVDB")] ∧
    edges_of (deps e) = Some [(NTask 2 0, "WFQ"); (NTask 0 0, "WFK");
                              (NWork 1, "DDB"); (NWork 2, "DVDB")] ∧
    works flow !! 4 = Some inteph ∧
    e' ∈ tasks inteph ∧
    qpt_of e' = Some q_half ∧
    deps e' = [(ONode (NTask 2 0), OStr "WFQ"); (ONode (NTask 0 0), OStr "WFK");
               (ONode (NWork 1), OStrs ["DDB"; "DVDB"])] ∧
    edges_of (deps e') = Some [(NTask 2 0, "WFQ"); (NTask 0 0, "WFK");
                               (NWork 1, "DDB"); (NWork 1, "DVDB")].
Proof.
  assert (upstream_ok sample_PhononWfkqWork_tasks [q_half; q_minus_half]) as Hok
    by (repeat constructor; eexists; reflexivity).
  split; [exact Hok|].
  assert (q_half ∈ upstream_qpoints sample_PhononWfkqWork_tasks [q_half; q_minus_half])
    as Hq by (rewrite sample_upstream_qpoints; left).
  destruct (C6_eph_tasks_cross_work_edges
              sample_PhononWork_tasks sample_PhononWfkqWork_tasks
              sample_scf_input sample_ngqpt [q_half; q_minus_half] false true Hok)
    as (flow & qmesh & qpath & eph & Hrun & Hw1 & -> & Hw2 & -> & Hw3 & Hhas & Hall
        & inteph & Hw4 & Hhas' & Hall').
  destruct (Hhas q_half Hq) as (e & Hel & Hqe).
  destruct (Hall e Hel) as (q & task & _ & Hqe' & Hfw & Hdeps & Hedges).
  rewrite Hqe in Hqe'. injection Hqe' as <-.
  apply (first_with_head sample_phonon_tasks q_half _ _ eq_refl eq_refl) in Hfw.
  subst task.
  destruct (Hhas' q_half Hq) as (e' & Hel' & Hqe').
  destruct (Hall' e' Hel') as (q & task & _ & Hqe'' & Hfw' & Hdeps' & Hedges').
  rewrite Hqe' in Hqe''. injection Hqe'' as <-.
  apply (first_with_head sample_phonon_tasks q_half _ _ eq_refl eq_refl) in Hfw'.
  subst task.
  eexists flow, _, _, eph, inteph, e, e'.
  split; [exact Hrun|]. split; [exact Hw1|]. split; [reflexivity|].
  split; [exact Hw2|]. split; [reflexivity|]. split; [exact Hw3|].
  split; [exact Hel|]. split; [exact Hqe|]. split; [exact Hdeps|].
  split; [exact (Hedges _ eq_refl)|].
  split; [exact Hw4|]. split; [exact Hel'|]. split; [exact Hqe'|]. split; [exact Hdeps'|].
  exact (Hedges' _ eq_refl).
Defined.

Lemma C4_deps_go_from_producer_to_names_witness :
  ∃ new t0 rest,
    ElasticWork.from_scf_input sample_ddk_inputs sample_dde_inputs sample_strain_inputs
      sample_new_with_vars
      0 sample_scf_input true true true None None = Ok new ∧
    tasks new = t0 :: rest ∧
    length rest = 7 ∧
    Forall (λ t, producer_to_names (deps t) = true) rest.
Proof.
  assert (∃ new,
            ElasticWork.from_scf_input sample_ddk_inputs sample_dde_inputs
              sample_strain_inputs sample_new_with_vars
                0 sample_scf_input true true true None None = Ok new ∧
            length (tasks new) = 8) as (new & Hrun & Hlen)
    by (eexists; split; [vm_compute; reflexivity|reflexivity]).
  destruct (proj1 C4_deps_go_from_producer_to_names _ _ _ _ _ _ _ _ _ _ _ _ Hrun)
    as (t0 & rest & Htasks & _ & Hall).
  exists new, t0, rest. split; [exact Hrun|]. split; [exact Htasks|].
  split; [|exact Hall]. rewrite Htasks in Hlen. simpl in Hlen. lia.
Defined.

Lemma C5_built_edges_in_vocabulary_witness :
  ∃ new t0 rest,
    ElasticWork.from_scf_input sample_ddk_inputs sample_dde_inputs sample_strain_inputs
      sample_new_with_vars
      0 sample_scf_input true true true None
      (Some [(ONode (NTask 9 0), OStr "DEN")]) = Ok new ∧
    tasks new = t0 :: rest ∧
    deps t0 = [(ONode (NTask 9 0), OStr "DEN")] ∧
    Forall (λ t, ∃ es, edges_of (deps t) = Some es ∧
                       Forall (λ e, e.2 ∈ vocabulary) es) rest.
Proof.
  assert (∃ new,
            ElasticWork.from_scf_input sample_ddk_inputs sample_dde_inputs
              sample_strain_inputs sample_new_with_vars 0 sample_scf_input true true true None
              (Some [(ONode (NTask 9 0), OStr "DEN")]) = Ok new) as (new & Hrun)
    by (eexists; vm_compute; reflexivity).
  destruct (proj1 C5_built_edges_in_vocabulary _ _ _ _ _ _ _ _ _ _ _ _ Hrun)
    as (t0 & rest & Htasks & Hdeps & Hall).
  exists new, t0, rest. split; [exact Hrun|]. split; [exact Htasks|].
  split; [exact Hdeps|exact Hall].
Defined.

Lemma C7_on_all_ok_returns_merge_done_witness :
  (ElasticWork.on_all_ok sample_merge finished_work).2
  = Ok (ElasticWork.mkResults 0 0 "DDB merge done").
Proof.
  apply (C7_on_all_ok_returns_merge_done sample_merge finished_work).
  split; [exists "outdir/out_DDB"; reflexivity|reflexivity].
Defined.

Lemma C9_ddk_deps_bound_before_read_witness :
  (∃ new, ElasticWork.from_scf_input sample_ddk_inputs sample_dde_inputs
            sample_strain_inputs sample_new_with_vars
              0 sample_scf_input true false true None None = Ok new) ∧
  (∃ new, ElasticWork.from_scf_input sample_ddk_inputs sample_dde_inputs
            sample_strain_inputs sample_new_with_vars
              0 sample_scf_input true true false None None = Ok new) ∧
  (∃ new, ElasticWork.from_scf_input sample_ddk_inputs sample_dde_inputs
            sample_strain_inputs sample_new_with_vars
              0 sample_scf_input true false false None None = Ok new).
Proof.
  split; [|split].
  - destruct (C9_ddk_deps_bound_before_read sample_ddk_inputs sample_dde_inputs
                sample_strain_inputs sample_new_with_vars
                  0 sample_scf_input true false true None None)
      as (_ & _ & _ & _ & _ & [H|[[? H] _]]); [exact H|discriminate H].
  - destruct (C9_ddk_deps_bound_before_read sample_ddk_inputs sample_dde_inputs
                sample_strain_inputs sample_new_with_vars
                  0 sample_scf_input true true false None None)
      as (_ & _ & _ & _ & _ & [H|[[? H] _]]); [exact H|discriminate H].
  - destruct (C9_ddk_deps_bound_before_read sample_ddk_inputs sample_dde_inputs
                sample_strain_inputs sample_new_with_vars
                  0 sample_scf_input true false false None None)
      as (_ & _ & _ & _ & _ & [H|[[? H] _]]); [exact H|discriminate H].
Defined.

Lemma C10_wfk_task_is_scf_or_nscf_witness :
  (∃ new, ElasticWork.from_scf_input sample_ddk_inputs sample_dde_inputs
            sample_strain_inputs sample_new_with_vars
            0 sample_scf_input true false false None None = Ok new ∧
          tasks new !! 0 = Some (mkTask ScfTask sample_scf_input [] Init)) ∧
  (∃ new, ElasticWork.from_scf_input sample_ddk_inputs sample_dde_inputs
            sample_strain_inputs sample_new_with_vars
            0 sample_scf_input true false false
            (Some {["ddk" := {["tolwfr" := num 1]}]})
            (Some [(ONode (NTask 9 0), OStr "DEN")]) = Ok new ∧
          tasks new !! 0
          = Some (nscf_task sample_new_with_vars sample_scf_input tolwfr_default
                    [(ONode (NTask 9 0), OStr "DEN")])) ∧
  (∃ new, ElasticWork.from_scf_input sample_ddk_inputs sample_dde_inputs
            sample_strain_inputs sample_new_with_vars
            0 sample_scf_input true false false
            (Some {["nscf" := {["tolwfr" := num 1]}]})
            (Some [(ONode (NTask 9 0), OStr "DEN")]) = Ok new ∧
          tasks new !! 0
          = Some (nscf_task sample_new_with_vars sample_scf_input (num 1)
                    [(ONode (NTask 9 0), OStr "DEN")])) ∧
  ElasticWork.from_scf_input sample_ddk_inputs sample_dde_inputs
    sample_strain_inputs sample_new_with_vars
    0 sample_scf_input true false false
    (Some {["nscf" := {["tolvrs" := num 1]}]})
    (Some [(ONode (NTask 9 0), OStr "DEN")]) = Raise (KeyError "tolwfr").
Proof.
  split; [|split; [|split]].
  - apply (C10_wfk_task_is_scf_or_nscf sample_ddk_inputs sample_dde_inputs
             sample_strain_inputs sample_new_with_vars
             0 sample_scf_input true false false None None).
    reflexivity.
  - apply (C10_wfk_task_is_scf_or_nscf sample_ddk_inputs sample_dde_inputs
             sample_strain_inputs sample_new_with_vars
             0 sample_scf_input true false false
             (Some {["ddk" := {["tolwfr" := num 1]}]})
             (Some [(ONode (NTask 9 0), OStr "DEN")])); reflexivity.
  - destruct (C10_wfk_task_is_scf_or_nscf sample_ddk_inputs sample_dde_inputs
                sample_strain_inputs sample_new_with_vars
                0 sample_scf_input true false false
                (Some {["nscf" := {["tolwfr" := num 1]}]})
                (Some [(ONode (NTask 9 0), OStr "DEN")])) as (_ & _ & H & _).
    apply (H _ {["tolwfr" := num 1]}); reflexivity.
  - destruct (C10_wfk_task_is_scf_or_nscf sample_ddk_inputs sample_dde_inputs
                sample_strain_inputs sample_new_with_vars
                0 sample_scf_input true false false
                (Some {["nscf" := {["tolvrs" := num 1]}]})
                (Some [(ONode (NTask 9 0), OStr "DEN")])) as (_ & _ & _ & H).
    apply (H [(ONode (NTask 9 0), OStr "DEN")] {["tolvrs" := num 1]}); reflexivity.
Defined.

(** * Further properties *)

(** ** Dicts with fresh keys *)

Lemma dict_set_fresh k v (d : pydict) :
  k ∉ d.*1 → dict_set k v d = d ++ [(k, v)].
Proof.
  induction d as [|[k' v'] d IH]; simpl; [done|].
  intros Hk. apply not_elem_of_cons in Hk as [Hne Hk].
  rewrite decide_False by done. by rewrite IH.
Qed.

Lemma dict_update_fresh (d2 : pydict) : ∀ d : pydict,
  NoDup (d ++ d2).*1 → dict_update d d2 = d ++ d2.
Proof.
  unfold dict_update. induction d2 as [|[k v] d2 IH]; intros d Hnd; simpl.
  - by rewrite app_nil_r.
  - rewrite fmap_app in Hnd. simpl in Hnd.
    rewrite dict_set_fresh.
    + rewrite IH; [by rewrite <- app_assoc|].
      rewrite <- app_assoc. simpl. by rewrite fmap_app.
    + apply NoDup_app in Hnd as (_ & Hdis & _). intros Hin. apply (Hdis _ Hin). left.
Qed.

Lemma dict_of_items_fresh (items : pydict) :
  NoDup items.*1 → dict_of_items items = items.
Proof. intros. by apply (dict_update_fresh items []). Qed.

Lemma ddk_keys_NoDup wid m n :
  NoDup ((λ i, (ONode (NTask wid i), OStr "DDK")) <$> seq m n).*1.
Proof.
  rewrite <- list_fmap_compose. apply NoDup_fmap_2; [|apply NoDup_seq].
  intros i j [= ->]. done.
Qed.

Lemma wfk_ddk_keys_NoDup wid n :
  NoDup (((ONode (NTask wid 0), OStr "WFK")
          :: ((λ i, (ONode (NTask wid i), OStr "DDK")) <$> seq 1 n)) : pydict).*1.
Proof.
  rewrite fmap_cons. constructor; [|apply ddk_keys_NoDup].
  rewrite <- list_fmap_compose. intros [i [[= <-] Hi]]%list_elem_of_fmap.
  apply elem_of_seq in Hi. lia.
Qed.

(** ** The loops of [ElasticWork.from_scf_input] in closed form *)

Lemma register_all_loop k d l : ∀ new,
  foldl (λ new inp, mkWork (work_id new) (tasks new ++ [mkTask k inp d Init])) new l
  = mkWork (work_id new) (tasks new ++ ((λ inp, mkTask k inp d Init) <$> l)).
Proof.
  induction l as [|inp l IH]; intros new; simpl.
  - rewrite app_nil_r. by destruct new.
  - rewrite IH. simpl. by rewrite <- app_assoc.
Qed.

Lemma register_some_loop k (P : AbinitInput → Prop) `{!∀ inp, Decision (P inp)} d l : ∀ new,
  foldl (λ new inp, if bool_decide (P inp)
                    then mkWork (work_id new) (tasks new ++ [mkTask k inp d Init])
                    else new) new l
  = mkWork (work_id new) (tasks new ++ ((λ inp, mkTask k inp d Init) <$> filter P l)).
Proof.
  induction l as [|inp l IH]; intros new; simpl.
  - rewrite app_nil_r. by destruct new.
  - rewrite IH, filter_cons. case_bool_decide as HP.
    + rewrite decide_True by done. simpl. by rewrite <- app_assoc.
    + by rewrite decide_False by done.
Qed.

(** A Work that starts with the WFK Task and a block [D] of DDK Tasks:
    when the later Tasks depend on these only, every edge points backwards. *)
Lemma backward_edges wid t0 (D R : list Task) i t k v :
  Forall (λ t, kind t = DdkTask ∧ deps t = [wfk_item wid]) D →
  Forall (λ t, ∀ kv, kv ∈ deps t →
                kv = wfk_item wid ∨
                kv ∈ (λ i, (ONode (NTask wid i), OStr "DDK")) <$> seq 1 (length D)) R →
  (t0 :: D ++ R) !! i = Some t →
  0 < i →
  (k, v) ∈ deps t →
  ∃ j p, k = ONode (NTask wid j) ∧ j < i ∧ (t0 :: D ++ R) !! j = Some p ∧
         ((j = 0 ∧ v = OStr "WFK") ∨ (kind p = DdkTask ∧ v = OStr "DDK")).
Proof.
  intros HD HR Hi Hpos Hkv.
  destruct i as [|i]; [lia|]. simpl in Hi.
  destruct (decide (i < length D)) as [Hlt|Hge].
  - rewrite lookup_app_l in Hi by done.
    rewrite Forall_forall in HD. apply list_elem_of_lookup_2, HD in Hi as [_ Hdeps].
    rewrite Hdeps in Hkv. apply list_elem_of_singleton in Hkv as [= -> ->].
    exists 0, t0. split; [done|]. split; [lia|]. split; [done|]. by left.
  - rewrite lookup_app_r in Hi by lia.
    rewrite Forall_forall in HR. apply list_elem_of_lookup_2 in Hi.
    destruct (HR _ Hi _ Hkv) as [[= -> ->]|Hin].
    + exists 0, t0. split; [done|]. split; [lia|]. split; [done|]. by left.
    + apply list_elem_of_fmap in Hin as (j & [= -> ->] & Hj). apply elem_of_seq in Hj.
      destruct j as [|j]; [lia|].
      destruct (lookup_lt_is_Some_2 D j) as [p Hp]; [lia|].
      exists (S j), p. split; [done|]. split; [lia|]. split.
      * simpl. by rewrite lookup_app_l by lia.
      * right. split; [|done].
        rewrite Forall_forall in HD. by apply list_elem_of_lookup_2, HD in Hp as [? _].
Qed.

Section ElasticWork_exact.

Variable make_ddk_inputs : AbinitInput → option tolerance → list AbinitInput.
Variable make_dde_inputs : AbinitInput → option tolerance → bool → list AbinitInput.
Variable make_strain_perts_inputs :
  AbinitInput → option tolerance → bool → Z → list AbinitInput.

Variable new_with_vars : AbinitInput → kwargs → AbinitInput.

(** After the WFK Task the constructor registers [later_tasks], and
    nothing else. *)
Lemma elastic_work_exact wid scf_input ion piezo dde tolerances den_deps t0 :
  ElasticWork.wfk_phase new_with_vars scf_input (default ∅ tolerances) den_deps (new_work wid)
    = Ok (0, mkWork wid [t0]) →
  ElasticWork.from_scf_input make_ddk_inputs make_dde_inputs make_strain_perts_inputs
      new_with_vars
    wid scf_input ion piezo dde tolerances den_deps
  = Ok (mkWork wid
          (t0 :: later_tasks make_ddk_inputs make_dde_inputs make_strain_perts_inputs
                   wid scf_input ion piezo dde (default ∅ tolerances))).
Proof.
  intros Hwfk. unfold ElasticWork.from_scf_input. rewrite Hwfk. simpl.
  unfold later_tasks, strain_deps, phonon_inputs, elastic_inputs, dde_multi, ddk_items,
    ddk_multi, strain_multi, wfk_item.
  unfold ElasticWork.ddk_phase.
  set (tol := default ∅ tolerances).
  set (sm := make_strain_perts_inputs scf_input (tol !! "strain") ion 2).
  destruct (piezo || dde) eqn:Hpd.
  - rewrite ddk_loop_spec. simpl.
    set (dm := make_ddk_inputs scf_input (tol !! "ddk")).
    unfold ElasticWork.dde_phase, ElasticWork.phonon_phase, ElasticWork.elastic_phase,
      ElasticWork.wfk_dep, node_of, register_dde_task, register_phonon_task,
      register_elastic_task.
    simpl.
    rewrite (dict_of_items_fresh _ (ddk_keys_NoDup wid 1 (length dm))).
    destruct dde, ion, piezo; simpl in *; try done;
      rewrite ?register_all_loop, ?register_some_loop; simpl;
      rewrite ?register_some_loop; simpl;
      change (dict_of_items [(ONode (NTask wid 0), OStr "WFK")])
        with [(ONode (NTask wid 0), OStr "WFK")];
      rewrite ?(dict_update_fresh _ [_] (wfk_ddk_keys_NoDup wid (length dm)));
      rewrite ?app_nil_r, <- ?app_assoc; reflexivity.
  - apply orb_false_elim in Hpd as [-> ->].
    unfold ElasticWork.dde_phase, ElasticWork.phonon_phase, ElasticWork.elastic_phase,
      ElasticWork.wfk_dep, node_of, register_dde_task, register_phonon_task,
      register_elastic_task.
    destruct ion; simpl;
      rewrite ?register_some_loop; simpl;
      rewrite ?register_some_loop; simpl;
      change (dict_of_items [(ONode (NTask wid 0), OStr "WFK")])
        with [(ONode (NTask wid 0), OStr "WFK")];
      rewrite ?app_nil_r, <- ?app_assoc; reflexivity.
Qed.


Local Abbreviation later wid scf_input ion piezo dde tolerances :=
  (later_tasks make_ddk_inputs make_dde_inputs make_strain_perts_inputs
     wid scf_input ion piezo dde (default ∅ tolerances)).

(** Whatever the constructor returns is the first Task followed by
    [later_tasks]. *)
Lemma elastic_work_returned wid scf_input ion piezo dde tolerances den_deps new :
  ElasticWork.from_scf_input make_ddk_inputs make_dde_inputs make_strain_perts_inputs
      new_with_vars
    wid scf_input ion piezo dde tolerances den_deps = Ok new →
  ∃ t0, deps t0 = default [] den_deps ∧
        new = mkWork wid (t0 :: later wid scf_input ion piezo dde tolerances).
Proof.
  intros Hrun.
  destruct (wfk_phase_cases new_with_vars scf_input (default ∅ tolerances) den_deps wid)
    as [(t0 & H & Hdeps)|[_ H]].
  - rewrite (elastic_work_exact _ _ _ _ _ _ _ _ H) in Hrun. injection Hrun as <-.
    by exists t0.
  - rewrite (from_scf_input_raise make_ddk_inputs make_dde_inputs make_strain_perts_inputs
               new_with_vars
               _ _ ion piezo dde _ _ _ H) in Hrun. done.
Qed.

(** X1: the Tasks come in the order WFK, DDK, DDE, phonon, strain.  The DDK
    block has one Task per DDK input and exists iff [with_piezo or with_dde];
    the DDE block one Task per DDE input, iff [with_dde]; the phonon block one
    Task per strain input with [rfphon == 1], iff [with_relaxed_ion]; the
    last block one Task per strain input with [rfstrs != 0].  A strain input
    with neither is not registered, one with both is registered twice. *)
Theorem X1_elastic_work_task_order wid scf_input ion piezo dde tolerances den_deps new :
  ElasticWork.from_scf_input make_ddk_inputs make_dde_inputs make_strain_perts_inputs
      new_with_vars
    wid scf_input ion piezo dde tolerances den_deps = Ok new →
  let tol : tolerances_dict := default ∅ tolerances in
  let strain := make_strain_perts_inputs scf_input (tol !! "strain") ion 2 in
  (λ t, (kind t, input t)) <$> tail (tasks new)
  = ((λ inp, (DdkTask, inp))
       <$> (if piezo || dde then make_ddk_inputs scf_input (tol !! "ddk") else []))
    ++ ((λ inp, (DdeTask, inp))
          <$> (if dde then make_dde_inputs scf_input (tol !! "dde") true else []))
    ++ ((λ inp, (PhononTask, inp))
          <$> (if ion then filter (λ inp, ElasticWork.get0 inp "rfphon" = num 1) strain
               else []))
    ++ ((λ inp, (ElasticTask, inp))
          <$> filter (λ inp, ElasticWork.get0 inp "rfstrs" ≠ num 0) strain).
Proof.
  intros Hrun tol strain.
  apply elastic_work_returned in Hrun as (t0 & _ & ->). simpl.
  unfold later_tasks. rewrite !fmap_app, <- !list_fmap_compose. reflexivity.
Qed.

(** X2: a DDK Task depends on the WFK Task only; a DDE Task on the WFK Task
    and on every DDK Task; a phonon or strain Task on the WFK Task, and on
    every DDK Task iff [with_piezo].  So with [with_dde] alone the DDK Tasks
    are read by the DDE Tasks only. *)
Theorem X2_elastic_work_deps_by_kind wid scf_input ion piezo dde tolerances den_deps new t :
  ElasticWork.from_scf_input make_ddk_inputs make_dde_inputs make_strain_perts_inputs
      new_with_vars
    wid scf_input ion piezo dde tolerances den_deps = Ok new →
  t ∈ tail (tasks new) →
  let n := length (if piezo || dde
                   then make_ddk_inputs scf_input (default ∅ tolerances !! "ddk") else []) in
  let wfk : Dependency := (ONode (NTask wid 0), OStr "WFK") in
  let ddk : list Dependency := (λ i, (ONode (NTask wid i), OStr "DDK")) <$> seq 1 n in
  deps t = match kind t with
           | DdkTask => [wfk]
           | DdeTask => wfk :: ddk
           | _ => wfk :: (if piezo then ddk else [])
           end.
Proof.
  intros Hrun Hin n wfk ddk.
  apply elastic_work_returned in Hrun as (t0 & _ & ->). simpl in Hin.
  unfold later_tasks in Hin.
  repeat (apply elem_of_app in Hin as [Hin|Hin]);
    apply list_elem_of_fmap in Hin as (inp & -> & _); reflexivity.
Qed.

Local Abbreviation tail_blocks wid scf_input ion piezo dde tolerances :=
  (((λ inp, mkTask DdeTask inp
       (wfk_item wid :: ddk_items make_ddk_inputs wid scf_input piezo dde
                          (default ∅ tolerances)) Init)
      <$> dde_multi make_dde_inputs scf_input dde (default ∅ tolerances))
   ++ ((λ inp, mkTask PhononTask inp
          (strain_deps make_ddk_inputs wid scf_input piezo dde (default ∅ tolerances)) Init)
         <$> phonon_inputs make_strain_perts_inputs scf_input ion (default ∅ tolerances))
   ++ ((λ inp, mkTask ElasticTask inp
          (strain_deps make_ddk_inputs wid scf_input piezo dde (default ∅ tolerances)) Init)
         <$> elastic_inputs make_strain_perts_inputs scf_input ion (default ∅ tolerances))).

(** X3: the dependency graph inside an [ElasticWork] only points backwards.
    Every dependency of a Task after the first names an earlier Task of the
    same Work: either the first Task, for "WFK", or a DDK Task, for "DDK". *)
Theorem X3_elastic_work_edges_point_backwards
    wid scf_input ion piezo dde tolerances den_deps new i t k v :
  ElasticWork.from_scf_input make_ddk_inputs make_dde_inputs make_strain_perts_inputs
      new_with_vars
    wid scf_input ion piezo dde tolerances den_deps = Ok new →
  tasks new !! i = Some t →
  0 < i →
  (k, v) ∈ deps t →
  ∃ j p, k = ONode (NTask wid j) ∧ j < i ∧ tasks new !! j = Some p ∧
         ((j = 0 ∧ v = OStr "WFK") ∨ (kind p = DdkTask ∧ v = OStr "DDK")).
Proof.
  intros Hrun Hi Hpos Hkv.
  apply elastic_work_returned in Hrun as (t0 & _ & ->).
  apply (backward_edges wid t0
           ((λ inp, mkTask DdkTask inp [wfk_item wid] Init)
              <$> ddk_multi make_ddk_inputs scf_input piezo dde (default ∅ tolerances))
           (tail_blocks wid scf_input ion piezo dde tolerances) i t); try done.
  - apply Forall_fmap, Forall_forall. by intros.
  - rewrite length_fmap. unfold tail_blocks.
    rewrite !Forall_app, !Forall_fmap. repeat split; apply Forall_forall;
      intros inp _ kv; simpl; unfold strain_deps, ddk_items;
      intros [->|Hkv']%elem_of_cons; auto.
    + destruct piezo; [auto|by apply elem_of_nil in Hkv'].
    + destruct piezo; [auto|by apply elem_of_nil in Hkv'].
Qed.

(** X5: of [tolerances] the constructor reads the keys "nscf", "ddk", "dde"
    and "strain" and no other: two dicts that agree on these four give the
    same outcome. *)
Theorem X5_elastic_work_reads_four_tolerances
    wid scf_input ion piezo dde (tol tol' : tolerances_dict) den_deps :
  (∀ key, key ∈ ["nscf"; "ddk"; "dde"; "strain"] → tol !! key = tol' !! key) →
  ElasticWork.from_scf_input make_ddk_inputs make_dde_inputs make_strain_perts_inputs
      new_with_vars
    wid scf_input ion piezo dde (Some tol) den_deps
  = ElasticWork.from_scf_input make_ddk_inputs make_dde_inputs make_strain_perts_inputs
      new_with_vars
      wid scf_input ion piezo dde (Some tol') den_deps.
Proof.
  intros Hagree.
  assert (tol !! "nscf" = tol' !! "nscf") as Hn by (apply Hagree; set_solver).
  assert (tol !! "ddk" = tol' !! "ddk") as Hk by (apply Hagree; set_solver).
  assert (tol !! "dde" = tol' !! "dde") as He by (apply Hagree; set_solver).
  assert (tol !! "strain" = tol' !! "strain") as Hs by (apply Hagree; set_solver).
  unfold ElasticWork.from_scf_input, ElasticWork.wfk_phase, ElasticWork.ddk_phase,
    ElasticWork.dde_phase, getitem. simpl.
  by rewrite Hn, Hk, He, Hs.
Qed.

End ElasticWork_exact.

(** ** More on the loops of [GkqPathFlow.from_scf_input] *)

Lemma for_each_app {A S} (f : A → S → result S) xs ys s :
  for_each f (xs ++ ys) s = s' ← for_each f xs s; for_each f ys s'.
Proof.
  revert s. induction xs as [|x xs IH]; intros s; simpl; [done|].
  destruct (f x s); simpl; [apply IH|done].
Qed.

Lemma qpt_error_task_qpt t e : qpt_error t = Some e → GkqPathFlow.task_qpt t = Raise e.
Proof.
  unfold qpt_error, GkqPathFlow.task_qpt, getitem.
  destruct (input t !! "qpt") as [[x|xs]|]; simpl; congruence.
Qed.

Lemma qpt_error_None t : qpt_error t = None ↔ is_Some (qpt_of t).
Proof.
  unfold qpt_error, qpt_of. destruct (input t !! "qpt") as [[x|xs]|]; simpl.
  - split; [done|]. by intros [? ?].
  - split; [eauto|done].
  - split; [done|]. by intros [? ?].
Qed.

Lemma for_each_cons_raises {A S} (f : A → S → result S) x xs s e :
  f x s = Raise e → for_each f (x :: xs) s = Raise e.
Proof. intros H. simpl. by rewrite H. Qed.

Lemma dedup_body_raises mk bad e st :
  qpt_error bad = Some e → dedup_body mk bad st = Raise e.
Proof. intros Hbad. unfold dedup_body. by rewrite (qpt_error_task_qpt _ _ Hbad). Qed.

(** A loop stops at the first Task whose q-point cannot be read. *)
Lemma dedup_loop_raises mk good bad rest e st :
  Forall (λ t, is_Some (qpt_of t)) good →
  qpt_error bad = Some e →
  for_each (dedup_body mk) (good ++ bad :: rest) st = Raise e.
Proof.
  intros Hgood Hbad. rewrite for_each_app. destruct st as [qseen w].
  rewrite dedup_loop by done.
  apply (for_each_cons_raises (dedup_body mk)). by apply dedup_body_raises.
Qed.

Lemma first_seen_app ts2 : ∀ ts1 (qseen : gset qpoint),
  first_seen qseen (ts1 ++ ts2)
  = first_seen qseen ts1 ++ first_seen (qseen ∪ list_to_set (omap qpt_of ts1)) ts2.
Proof.
  induction ts1 as [|t ts1 IH]; intros qseen; simpl.
  - f_equal. set_solver.
  - destruct (qpt_of t) as [q|]; [|apply IH].
    case_decide as Hq.
    + rewrite IH. do 2 f_equal. set_solver.
    + simpl. rewrite IH. do 3 f_equal. set_solver.
Qed.



Lemma first_bad_task (ts : list Task) :
  Forall (λ t, is_Some (qpt_of t)) ts ∨
  ∃ good bad rest e, ts = good ++ bad :: rest ∧
                     Forall (λ t, is_Some (qpt_of t)) good ∧ qpt_error bad = Some e.
Proof.
  induction ts as [|t ts IH]; [by left|].
  destruct (qpt_error t) as [e|] eqn:He.
  - right. exists [], t, ts, e. by repeat split.
  - apply qpt_error_None in He.
    destruct IH as [Hall|(good & bad & rest & e & -> & Hgood & Hbad)].
    + left. by constructor.
    + right. exists (t :: good), bad, rest, e. repeat split; [|done]. by constructor.
Qed.


Section GkqPathFlow_further.

Variable qmesh_tasks : nat → node → qpoint → bool → list Task.
Variable qpath_tasks : nat → node → list qpoint → list Task * list Task.

Local Abbreviation gkq_flow := (GkqPathFlow.from_scf_input qmesh_tasks qpath_tasks).
Local Abbreviation upstream qpath_list :=
  (phonon_tasks (work_qpath qpath_tasks qpath_list)).

Lemma from_scf_input_raises scf_input ngqpt qpath_list with_becs ft good bad rest e :
  upstream qpath_list = good ++ bad :: rest →
  Forall (λ t, is_Some (qpt_of t)) good →
  qpt_error bad = Some e →
  gkq_flow scf_input ngqpt qpath_list with_becs ft = Raise e.
Proof.
  intros Hsplit Hgood Hbad.
  unfold GkqPathFlow.from_scf_input, flow_register_scf_task, node_of. simpl.
  change (GkqPathFlow.PhononWfkqWork_from_scf_task qpath_tasks 2 (NTask 0 0) qpath_list)
    with (work_qpath qpath_tasks qpath_list).
  rewrite Hsplit.
  rewrite (for_each_ext _ _ _ _ (eph_body_dedup scf_input ngqpt _ _)).
  by rewrite (dedup_loop_raises _ good bad rest e).
Qed.

(** X6: the constructor returns a flow exactly when every upstream phonon
    Task has a "qpt" vector in its input.  Otherwise it raises what reading
    the q-point of the first Task without one raises: [KeyError] on "qpt"
    when the variable is missing, [TypeError] when it is a scalar; no flow
    is returned, whatever [test_ft_interpolation] is. *)
Theorem X6_gkq_flow_needs_upstream_qpoints scf_input ngqpt qpath_list with_becs ft :
  (upstream_ok qpath_tasks qpath_list
   ↔ ∃ flow, gkq_flow scf_input ngqpt qpath_list with_becs ft = Ok flow) ∧
  (∀ good bad rest,
     upstream qpath_list = good ++ bad :: rest →
     Forall (λ t, is_Some (qpt_of t)) good →
     (input bad !! "qpt" = None →
        gkq_flow scf_input ngqpt qpath_list with_becs ft = Raise (KeyError "qpt")) ∧
     (∀ x, input bad !! "qpt" = Some (VNum x) →
        gkq_flow scf_input ngqpt qpath_list with_becs ft
        = Raise (TypeError "object is not iterable"))).
Proof.
  split.
  - split.
    + intros Hok. eexists. by apply from_scf_input_flow.
    + intros [flow Hrun].
      destruct (first_bad_task (upstream qpath_list))
        as [Hall|(good & bad & rest & e & Hsplit & Hgood & Hbad)]; [done|].
      rewrite (from_scf_input_raises _ _ _ _ _ _ _ _ _ Hsplit Hgood Hbad) in Hrun. done.
  - intros good bad rest Hsplit Hgood. split.
    + intros Hq. apply (from_scf_input_raises _ _ _ _ _ _ _ _ _ Hsplit Hgood).
      unfold qpt_error. by rewrite Hq.
    + intros x Hq. apply (from_scf_input_raises _ _ _ _ _ _ _ _ _ Hsplit Hgood).
      unfold qpt_error. by rewrite Hq.
Qed.


(** X8: with [test_ft_interpolation] the two electron-phonon Works line
    up Task by Task: same q-point, same upstream dependencies, and the input
    of the interpolation Task is the input of the ab-initio Task with
    [eph_use_ftinterp] set to 1. *)
Theorem X8_interpolation_work_mirrors_eph_work scf_input ngqpt qpath_list with_becs :
  upstream_ok qpath_tasks qpath_list →
  ∃ flow eph inteph,
    gkq_flow scf_input ngqpt qpath_list with_becs true = Ok flow ∧
    works flow !! 3 = Some eph ∧
    works flow !! 4 = Some inteph ∧
    Forall2 (λ e e',
               qpt_of e' = qpt_of e ∧
               input e' = <["eph_use_ftinterp" := num 1]> (input e) ∧
               ∃ up, deps e = up ++ [(ONode (NWork 1), OStr "DDB");
                                     (ONode (NWork 2), OStr "DVDB")] ∧
                     deps e' = up ++ [(ONode (NWork 1), OStrs ["DDB"; "DVDB"])])
            (tasks eph) (tasks inteph).
Proof.
  intros Hok.
  eexists _, (eph_work qpath_tasks scf_input ngqpt qpath_list),
    (inteph_work qpath_tasks scf_input ngqpt qpath_list).
  split; [by apply (from_scf_input_flow _ _ _ _ _ _ true)|]. split; [done|]. split; [done|].
  unfold eph_work, inteph_work. simpl.
  apply Forall2_fmap, Forall_Forall2_diag, Forall_forall. intros [q t] _. simpl.
  split; [by rewrite eph_task_qpt, inteph_task_qpt|]. split; [done|]. by exists (deps t).
Qed.

(** X14: [test_ft_interpolation] only appends a Work.  Without it the flow
    has four Works, the first of which holds the single SCF Task on
    [scf_input], without dependencies; with it the flow is the same four
    Works followed by the interpolation Work. *)
Theorem X14_ft_interpolation_only_appends scf_input ngqpt qpath_list with_becs :
  upstream_ok qpath_tasks qpath_list →
  ∃ flow inteph,
    gkq_flow scf_input ngqpt qpath_list with_becs false = Ok flow ∧
    gkq_flow scf_input ngqpt qpath_list with_becs true
      = Ok (mkFlow (works flow ++ [inteph])) ∧
    length (works flow) = 4 ∧
    (tasks <$> works flow !! 0) = Some [mkTask ScfTask scf_input [] Init] ∧
    (tasks <$> works flow !! 1)
      = Some (qmesh_tasks 1 (NTask 0 0) ngqpt with_becs) ∧
    (tasks <$> works flow !! 2) = Some (qpath_tasks 2 (NTask 0 0) qpath_list).1.
Proof.
  intros Hok. eexists _, _.
  split; [by apply (from_scf_input_flow _ _ _ _ _ _ false)|].
  split; [by apply (from_scf_input_flow _ _ _ _ _ _ true)|].
  split; [done|]. split; [done|]. split; [done|].
  simpl. unfold work_qpath, GkqPathFlow.PhononWfkqWork_from_scf_task.
  by destruct (qpath_tasks 2 (NTask 0 0) qpath_list).
Qed.

End GkqPathFlow_further.

(** X10: the first loop grows with the list of phonon Tasks.  The Tasks
    registered for a list are a prefix of those registered for a longer
    list, and Tasks whose q-points all occur earlier add nothing. *)
Theorem X10_eph_loop_extends scf_input ngqpt qmesh qpath ts1 ts2 w :
  Forall (λ t, is_Some (qpt_of t)) (ts1 ++ ts2) →
  ∃ (seen1 seen2 : gset qpoint) w1 w2,
    for_each (GkqPathFlow.eph_body scf_input ngqpt qmesh qpath) ts1 (∅, w)
      = Ok (seen1, w1) ∧
    for_each (GkqPathFlow.eph_body scf_input ngqpt qmesh qpath) (ts1 ++ ts2) (∅, w)
      = Ok (seen2, w2) ∧
    tasks w1 `prefix_of` tasks w2 ∧
    seen1 ⊆ seen2 ∧
    ((∀ q, q ∈ omap qpt_of ts2 → q ∈ omap qpt_of ts1) → seen2 = seen1 ∧ w2 = w1).
Proof.
  intros [H1 H2]%Forall_app.
  eexists _, _, _, _. split; [by apply eph_loop|].
  split; [apply eph_loop; by apply Forall_app|].
  simpl. rewrite first_seen_app, fmap_app, app_assoc. split; [by eexists|].
  rewrite omap_app, list_to_set_app_L. split; [set_solver|].
  intros Hsub. rewrite (first_seen_all_seen ts2).
  - simpl. rewrite app_nil_r. split; [|done].
    apply set_eq. intros q. rewrite !elem_of_union, !elem_of_list_to_set. naive_solver.
  - intros q Hq. apply elem_of_union_r, elem_of_list_to_set. by apply Hsub.
Qed.

(** ** [Lesson] *)

(** X11: on an N x 3 array of fractional coordinates [get_dist] returns
    exactly when there are at least three sites, and then the label "u" with
    the difference of the third coordinates of sites 2 and 0; with fewer
    sites it raises [IndexError]. *)
Theorem X11_get_dist_needs_three_sites (float : Type) (fsub : float → float → float)
    (frac_coords : list (list float)) :
  Forall (λ site, length site = 3) frac_coords →
  (length frac_coords < 3 → Lesson.get_dist float fsub frac_coords = Lesson.IndexError) ∧
  ((3 ≤ length frac_coords)%nat →
   ∃ x0 y0 z0 x2 y2 z2,
     frac_coords !! 0 = Some [x0; y0; z0] ∧
     frac_coords !! 2 = Some [x2; y2; z2] ∧
     Lesson.get_dist float fsub frac_coords = Lesson.Item ("u", fsub z2 z0)).
Proof.
  intros Hrect. unfold Lesson.get_dist, Lesson.index. split.
  - intros Hlt. by rewrite (lookup_ge_None_2 frac_coords 2) by lia.
  - intros Hge.
    destruct frac_coords as [|s0 [|s1 [|s2 rest]]]; simpl in Hge; try lia.
    apply Forall_cons in Hrect as [H0 [_ [H2 _]%Forall_cons]%Forall_cons].
    destruct s0 as [|x0 [|y0 [|z0 [|??]]]]; try done.
    destruct s2 as [|x2 [|y2 [|z2 [|??]]]]; try done.
    by exists x0, y0, z0, x2, y2, z2.
Qed.

Lemma replace_pyc_4 c c2 c3 c4 rest :
  Lesson.replace_pyc (String c (String c2 (String c3 (String c4 rest))))
  = if decide (c = "."%char ∧ c2 = "p"%char ∧ c3 = "y"%char ∧ c4 = "c"%char)
    then String "." (String "p" (String "y" (Lesson.replace_pyc rest)))
    else String c (Lesson.replace_pyc (String c2 (String c3 (String c4 rest)))).
Proof. reflexivity. Qed.

Lemma replace_pyc_skip c s :
  ¬ (∃ rest, String c s = String "." (String "p" (String "y" (String "c" rest)))) →
  Lesson.replace_pyc (String c s) = String c (Lesson.replace_pyc s).
Proof.
  intros Hno. destruct s as [|c2 [|c3 [|c4 rest]]]; try reflexivity.
  rewrite replace_pyc_4. case_decide as H; [|done].
  destruct H as (-> & -> & -> & ->). exfalso. apply Hno. by eexists.
Qed.

Lemma occurs_cons sub c s : occurs sub s → occurs sub (String c s).
Proof. intros (pre & post & ->). by exists (String c pre), post. Qed.

Lemma occurs_here rest : occurs ".pyc" (".pyc" +:+ rest).
Proof. by exists "", rest. Qed.

(** The leftmost occurrence is replaced and the scan goes on behind it. *)
Lemma replace_pyc_leftmost rest : ∀ stem,
  ¬ occurs ".pyc" stem →
  Lesson.replace_pyc (stem +:+ ".pyc" +:+ rest) = stem +:+ ".py" +:+ Lesson.replace_pyc rest.
Proof.
  induction stem as [|c stem IH]; intros Hno.
  - change ("" +:+ ".pyc" +:+ rest)
      with (String "." (String "p" (String "y" (String "c" rest)))).
    rewrite replace_pyc_4. by rewrite decide_True.
  - change (String c stem +:+ ".pyc" +:+ rest) with (String c (stem +:+ ".pyc" +:+ rest)).
    rewrite replace_pyc_skip.
    + rewrite IH; [done|]. intros H. by apply Hno, occurs_cons.
    + intros [r Heq]. injection Heq as -> Heq.
      destruct stem as [|c2 [|c3 [|c4 stem]]]; simpl in Heq; try discriminate Heq.
      injection Heq as -> -> -> _. apply Hno. apply (occurs_here stem).
Qed.

Lemma replace_pyc_none : ∀ s, ¬ occurs ".pyc" s → Lesson.replace_pyc s = s.
Proof.
  induction s as [|c s IH]; intros Hno; [done|].
  rewrite replace_pyc_skip.
  - rewrite IH; [done|]. intros H. by apply Hno, occurs_cons.
  - intros [r Heq]. apply Hno. rewrite Heq. apply (occurs_here r).
Qed.

(** X12: [pyfile] turns the path of a compiled file into the path of its
    source: when ".pyc" does not occur in [stem], the path [stem + ".pyc"]
    gives [stem + ".py"].  More generally the leftmost ".pyc" of a path is
    replaced wherever it stands, also inside a directory name, and the rest
    of the path is treated in the same way. *)
Theorem X12_pyfile_replaces_pyc (stem rest : string) :
  ¬ occurs ".pyc" stem →
  Lesson.pyfile (stem +:+ ".pyc") = stem +:+ ".py" ∧
  Lesson.pyfile (stem +:+ ".pyc" +:+ rest) = stem +:+ ".py" +:+ Lesson.pyfile rest.
Proof.
  intros Hno. unfold Lesson.pyfile. split; [|by apply replace_pyc_leftmost].
  by apply (replace_pyc_leftmost "").
Qed.

(** X13: a path in which ".pyc" does not occur, such as the path of a
    source file, is returned unchanged. *)
Theorem X13_pyfile_keeps_source_path (path : string) :
  ¬ occurs ".pyc" path → Lesson.pyfile path = path.
Proof. apply replace_pyc_none. Qed.

(** ** The further properties at the sample inputs *)

Lemma X1_elastic_work_task_order_witness :
  ∃ new,
    ElasticWork.from_scf_input sample_ddk_inputs sample_dde_inputs sample_strain_inputs
      sample_new_with_vars
      0 sample_scf_input true false true None None = Ok new ∧
    kind <$> tasks new
    = [ScfTask; DdkTask; DdkTask; DdkTask; DdeTask; PhononTask; ElasticTask; ElasticTask].
Proof.
  assert (∃ new,
            ElasticWork.from_scf_input sample_ddk_inputs sample_dde_inputs
              sample_strain_inputs sample_new_with_vars
                0 sample_scf_input true false true None None = Ok new ∧
            kind <$> take 1 (tasks new) = [ScfTask] ∧
            tasks new = take 1 (tasks new) ++ tail (tasks new)) as (new & Hrun & H0 & Hsplit)
    by (eexists; split; [vm_compute; reflexivity|split; reflexivity]).
  exists new. split; [exact Hrun|].
  pose proof (X1_elastic_work_task_order sample_ddk_inputs sample_dde_inputs
                sample_strain_inputs sample_new_with_vars
                  0 sample_scf_input true false true None None new Hrun)
    as Htail.
  apply (f_equal (fmap fst)) in Htail. rewrite <- list_fmap_compose in Htail.
  rewrite Hsplit, fmap_app, H0.
  change (kind <$> tail (tasks new))
    with ((fst ∘ (λ t, (kind t, input t))) <$> tail (tasks new)).
  rewrite Htail. vm_compute. reflexivity.
Defined.

Lemma X2_elastic_work_deps_by_kind_witness :
  ∃ new t,
    ElasticWork.from_scf_input sample_ddk_inputs sample_dde_inputs sample_strain_inputs
      sample_new_with_vars
      0 sample_scf_input true false true None None = Ok new ∧
    tasks new !! 5 = Some t ∧
    kind t = PhononTask ∧
    deps t = [(ONode (NTask 0 0), OStr "WFK")].
Proof.
  assert (∃ new t,
            ElasticWork.from_scf_input sample_ddk_inputs sample_dde_inputs
              sample_strain_inputs sample_new_with_vars
                0 sample_scf_input true false true None None = Ok new ∧
            tasks new !! 5 = Some t ∧ tail (tasks new) !! 4 = Some t ∧
            kind t = PhononTask) as (new & t & Hrun & Ht & Htail & Hkind)
    by (eexists _, _; split; [vm_compute; reflexivity|repeat split; reflexivity]).
  exists new, t. split; [exact Hrun|]. split; [exact Ht|]. split; [exact Hkind|].
  pose proof (X2_elastic_work_deps_by_kind sample_ddk_inputs sample_dde_inputs
                sample_strain_inputs sample_new_with_vars
                  0 sample_scf_input true false true None None new t Hrun
                (list_elem_of_lookup_2 _ _ _ Htail)) as Hdeps.
  rewrite Hkind in Hdeps. exact Hdeps.
Defined.

Lemma X3_elastic_work_edges_point_backwards_witness :
  ∃ new t p,
    ElasticWork.from_scf_input sample_ddk_inputs sample_dde_inputs sample_strain_inputs
      sample_new_with_vars
      0 sample_scf_input true true true None None = Ok new ∧
    tasks new !! 4 = Some t ∧
    (ONode (NTask 0 2), OStr "DDK") ∈ deps t ∧
    tasks new !! 2 = Some p ∧
    kind p = DdkTask.
Proof.
  assert (∃ new t,
            ElasticWork.from_scf_input sample_ddk_inputs sample_dde_inputs
              sample_strain_inputs sample_new_with_vars
                0 sample_scf_input true true true None None = Ok new ∧
            tasks new !! 4 = Some t ∧
            (ONode (NTask 0 2), OStr "DDK") ∈ deps t) as (new & t & Hrun & Ht & Hin)
    by (eexists _, _; split; [vm_compute; reflexivity|split; [reflexivity|set_solver]]).
  destruct (X3_elastic_work_edges_point_backwards sample_ddk_inputs sample_dde_inputs
              sample_strain_inputs sample_new_with_vars
                0 sample_scf_input true true true None None new 4 t _ _
              Hrun Ht ltac:(lia) Hin)
    as (j & p & Hj & _ & Hp & [[_ Hv]|[Hk _]]); [discriminate Hv|].
  injection Hj as <-. exists new, t, p. repeat split; assumption.
Defined.

Lemma X5_elastic_work_reads_four_tolerances_witness :
  sample_tolerances_more ≠ sample_tolerances ∧
  ElasticWork.from_scf_input sample_ddk_inputs sample_dde_inputs sample_strain_inputs
      sample_new_with_vars
    0 sample_scf_input true true true (Some sample_tolerances_more) None
  = ElasticWork.from_scf_input sample_ddk_inputs sample_dde_inputs sample_strain_inputs
      sample_new_with_vars
      0 sample_scf_input true true true (Some sample_tolerances) None.
Proof.
  split.
  - intros Heq. apply (f_equal (λ m : tolerances_dict, m !! "scf")) in Heq.
    vm_compute in Heq. discriminate Heq.
  - apply X5_elastic_work_reads_four_tolerances.
    intros key Hkey.
    repeat (apply elem_of_cons in Hkey as [->|Hkey]); try reflexivity.
    by apply elem_of_nil in Hkey.
Defined.

Lemma X6_gkq_flow_needs_upstream_qpoints_witness :
  GkqPathFlow.from_scf_input sample_PhononWork_tasks broken_PhononWfkqWork_tasks
    sample_scf_input sample_ngqpt [q_half] false true = Raise (KeyError "qpt") ∧
  ∃ flow,
    GkqPathFlow.from_scf_input sample_PhononWork_tasks sample_PhononWfkqWork_tasks
      sample_scf_input sample_ngqpt [q_half; q_minus_half] false true = Ok flow.
Proof.
  split.
  - destruct (X6_gkq_flow_needs_upstream_qpoints sample_PhononWork_tasks
                broken_PhononWfkqWork_tasks sample_scf_input sample_ngqpt [q_half]
                false true) as [_ Hraise].
    eapply (Hraise [_] _ [_]); [reflexivity| |reflexivity].
    repeat constructor. eexists. reflexivity.
  - apply (X6_gkq_flow_needs_upstream_qpoints sample_PhononWork_tasks
             sample_PhononWfkqWork_tasks sample_scf_input sample_ngqpt
             [q_half; q_minus_half] false true).
    repeat constructor; eexists; reflexivity.
Defined.


Lemma X8_interpolation_work_mirrors_eph_work_witness :
  upstream_ok sample_PhononWfkqWork_tasks [q_half; q_minus_half] ∧
  ∃ flow eph inteph,
    GkqPathFlow.from_scf_input sample_PhononWork_tasks sample_PhononWfkqWork_tasks
      sample_scf_input sample_ngqpt [q_half; q_minus_half] false true = Ok flow ∧
    works flow !! 3 = Some eph ∧
    works flow !! 4 = Some inteph ∧
    Forall2 (λ e e', input e' = <["eph_use_ftinterp" := num 1]> (input e))
            (tasks eph) (tasks inteph).
Proof.
  assert (upstream_ok sample_PhononWfkqWork_tasks [q_half; q_minus_half])
    as Hok by (repeat constructor; eexists; reflexivity).
  split; [exact Hok|].
  destruct (X8_interpolation_work_mirrors_eph_work sample_PhononWork_tasks
              sample_PhononWfkqWork_tasks sample_scf_input sample_ngqpt
              [q_half; q_minus_half] false Hok)
    as (flow & eph & inteph & Hrun & Hw3 & Hw4 & Hall).
  exists flow, eph, inteph. split; [exact Hrun|]. split; [exact Hw3|]. split; [exact Hw4|].
  eapply Forall2_impl; [exact Hall|]. intros e e' (_ & Hinp & _). exact Hinp.
Defined.

Lemma X10_eph_loop_extends_witness :
  ∃ (seen : gset qpoint) w1,
    for_each (GkqPathFlow.eph_body sample_scf_input sample_ngqpt (NWork 1) (NWork 2))
      (take 1 sample_phonon_tasks) (∅, new_work 3) = Ok (seen, w1) ∧
    for_each (GkqPathFlow.eph_body sample_scf_input sample_ngqpt (NWork 1) (NWork 2))
      (take 1 sample_phonon_tasks ++ take 1 (drop 1 sample_phonon_tasks)) (∅, new_work 3)
      = Ok (seen, w1).
Proof.
  destruct (X10_eph_loop_extends sample_scf_input sample_ngqpt (NWork 1) (NWork 2)
              (take 1 sample_phonon_tasks) (take 1 (drop 1 sample_phonon_tasks))
              (new_work 3))
    as (seen1 & seen2 & w1 & w2 & H1 & H2 & _ & _ & Hsame).
  { repeat constructor; eexists; reflexivity. }
  destruct Hsame as [-> ->].
  { intros q Hq. vm_compute in Hq. apply list_elem_of_singleton in Hq as ->.
    vm_compute. left. }
  exists seen1, w1. split; [exact H1|exact H2].
Defined.

Lemma X11_get_dist_needs_three_sites_witness :
  Lesson.get_dist Qc Qcminus si_frac_coords = Lesson.IndexError ∧
  Lesson.get_dist Qc Qcminus gan_frac_coords
  = Lesson.Item ("u", Qcminus (Q2Qc (3 # 8)) (Q2Qc 0)).
Proof.
  split.
  - apply (X11_get_dist_needs_three_sites Qc Qcminus si_frac_coords);
      [repeat constructor|simpl; lia].
  - destruct (X11_get_dist_needs_three_sites Qc Qcminus gan_frac_coords) as [_ H];
      [repeat constructor|].
    destruct H as (x0 & y0 & z0 & x2 & y2 & z2 & H0 & H2 & Hret); [simpl; lia|].
    injection H0 as <- <- <-. injection H2 as <- <- <-. exact Hret.
Defined.

(** No ".pyc" in the path of the lesson without its extension. *)
Lemma sample_stem_clean : ¬ occurs ".pyc" sample_stem.
Proof.
  intros (pre & post & H). unfold sample_stem in H.
  repeat (destruct pre as [|? pre]; simpl in H; [discriminate H|injection H as _ H]).
  destruct pre; discriminate H.
Qed.

Lemma X12_pyfile_replaces_pyc_witness :
  Lesson.pyfile "/abipy/lessons/lesson_relaxation.pyc" = "/abipy/lessons/lesson_relaxation.py".
Proof.
  apply (X12_pyfile_replaces_pyc sample_stem ""). apply sample_stem_clean.
Defined.

Lemma X13_pyfile_keeps_source_path_witness :
  Lesson.pyfile sample_stem = sample_stem.
Proof. apply X13_pyfile_keeps_source_path. apply sample_stem_clean. Defined.

Lemma X14_ft_interpolation_only_appends_witness :
  upstream_ok sample_PhononWfkqWork_tasks [q_half; q_minus_half] ∧
  ∃ flow inteph,
    GkqPathFlow.from_scf_input sample_PhononWork_tasks sample_PhononWfkqWork_tasks
      sample_scf_input sample_ngqpt [q_half; q_minus_half] false false = Ok flow ∧
    GkqPathFlow.from_scf_input sample_PhononWork_tasks sample_PhononWfkqWork_tasks
      sample_scf_input sample_ngqpt [q_half; q_minus_half] false true
    = Ok (mkFlow (works flow ++ [inteph])) ∧
    length (works flow) = 4.
Proof.
  assert (upstream_ok sample_PhononWfkqWork_tasks [q_half; q_minus_half])
    as Hok by (repeat constructor; eexists; reflexivity).
  split; [exact Hok|].
  destruct (X14_ft_interpolation_only_appends sample_PhononWork_tasks
              sample_PhononWfkqWork_tasks sample_scf_input sample_ngqpt
              [q_half; q_minus_half] false Hok)
    as (flow & inteph & H4 & H5 & Hlen & _).
  exists flow, inteph. split; [exact H4|]. split; [exact H5|exact Hlen].
Defined.
